(** * cronch: Sentinel-2 tiles binned into H3 hexagons

    A shallow embedding of [h3ingest.py].  The script is one function,
    [process_one_item], which walks the [BAND_GROUPS] table for one STAC
    item, and [main], which fetches the catalog and calls it.

    Conventions of the embedding.
    - A Python [float] is a binary64 value: Rocq's primitive [float].
    - A Python [int] is a [Z].
    - A raised exception is a value [Raise e] of the [result] type; the
      effects of the script (lines printed, parquet files written, the
      debugger entered) are appended to an explicit trace.
    - What the script delegates to its libraries (odc-stac, h3, geopandas,
      pyproj, the libm [pow], the [float] constructor) is taken as a
      parameter of a Section.
    - The raster samples are the integer digital numbers of the Sentinel-2
      product (the script's docstring prints them).  pandas turns them into
      binary64 values and sums each group with a compensated (Kahan) sum, in
      the order of the rows; the mean is that sum over the group's size.
    - An effect completes or raises as the outside decides: a write can fail,
      a debugger session can be quit. *)

From Stdlib Require Import ZArith QArith Qabs List String Ascii Bool Lia.
From Stdlib Require Import Permutation Sorted OrdersEx RelationClasses.
From Stdlib Require Import PrimFloat FloatOps SpecFloat FloatAxioms.
Import ListNotations.

Set Implicit Arguments.
Local Open Scope string_scope.
Local Open Scope Z_scope.

(** ** Exceptions and the error monad *)

Record exn : Type := mk_exn { exn_class : string; exn_msg : string }.

Inductive result (A : Type) : Type :=
| Ok (a : A)
| Raise (e : exn).
Arguments Ok {A} a.
Arguments Raise {A} e.

Definition bind {A B : Type} (r : result A) (k : A -> result B) : result B :=
  match r with
  | Ok a => k a
  | Raise e => Raise e
  end.

Declare Scope py_scope.
Delimit Scope py_scope with py.
Notation "x <- c ;; k" := (bind c (fun x => k))
  (at level 100, c at next level, right associativity) : py_scope.
Notation "c ;;; k" := (bind c (fun _ => k))
  (at level 100, right associativity) : py_scope.

Definition AssertionError (msg : string) : exn := mk_exn "AssertionError" msg.
Definition ZeroDivisionError : exn := mk_exn "ZeroDivisionError" "float division by zero".
Definition OverflowError (msg : string) : exn := mk_exn "OverflowError" msg.
Definition IndexError : exn := mk_exn "IndexError" "list index out of range".

(** [assert b, msg], as the interpreter runs it without [-O]. *)
Definition py_assert (b : bool) (msg : string) : result unit :=
  if b then Ok tt else Raise (AssertionError msg).

(** ** Python numbers *)

(** [BAND_GROUPS] holds both an [int] zoom (12) and a [float] one (11.0). *)
Inductive pynum : Type :=
| PyInt (n : Z)
| PyFloat (x : float).

(** The binary64 value nearest to an integer, in the specification's terms. *)
Definition bnZ (c : Z) : spec_float := binary_normalize prec emax c 0 false.

(** [int] to [float], as a true division converts its integer operand:
    round to nearest even, [OverflowError] beyond the binary64 range. *)
Definition float_of_Z (n : Z) : float :=
  SF2Prim (binary_normalize prec emax n 0 false).

Definition py_float_of_int (n : Z) : result float :=
  let f := float_of_Z n in
  if is_infinity f
  then Raise (OverflowError "int too large to convert to float")
  else Ok f.

(** [a / b] on floats: Python checks the divisor, then divides in binary64. *)
Definition py_truediv (a b : float) : result float :=
  if PrimFloat.eqb b 0%float then Raise ZeroDivisionError
  else Ok (PrimFloat.div a b).

(** [a / n] with an [int] divisor. *)
Definition py_truediv_int (a : float) (n : Z) : result float :=
  (b <- py_float_of_int n ;; py_truediv a b)%py.

(** [xs[i]] on a list. *)
Definition py_index {A : Type} (xs : list A) (i : nat) : result A :=
  match nth_error xs i with
  | Some x => Ok x
  | None => Raise IndexError
  end.

(** ** [str.split()] with no argument: maximal runs of non-whitespace *)

Definition is_space (c : ascii) : bool :=
  let n := N_of_ascii c in
  ((9 <=? n) && (n <=? 13) || (28 <=? n) && (n <=? 32))%N.

Fixpoint split_from (cur : string) (s : string) : list string :=
  match s with
  | EmptyString =>
      match cur with EmptyString => [] | _ => [cur] end
  | String c rest =>
      if is_space c
      then match cur with
           | EmptyString => split_from EmptyString rest
           | _ => cur :: split_from EmptyString rest
           end
      else split_from (cur ++ String c EmptyString) rest
  end.

Definition split (s : string) : list string := split_from EmptyString s.

(** ** The narrowing [astype("int16")] *)

(** The integer part of a binary64 value, read off its mantissa and
    exponent; [None] for infinities and NaN. *)
Definition trunc_sf (x : spec_float) : option Z :=
  match x with
  | S754_zero _ => Some 0
  | S754_finite s m e =>
      Some (cond_Zopp s (if 0 <=? e then Zpos m * 2 ^ e
                         else Z.shiftr (Zpos m) (- e)))
  | S754_infinity _ | S754_nan => None
  end.

(** numpy narrows with a C cast.  On the x86-64 builds that is the
    truncating conversion to a 32-bit integer (which answers [-2^31] for what
    it cannot represent), of which the low 16 bits are kept. *)
Definition double_to_int32 (x : float) : Z :=
  match trunc_sf (Prim2SF x) with
  | Some t => if (- 2 ^ 31 <=? t) && (t <? 2 ^ 31) then t else - 2 ^ 31
  | None => - 2 ^ 31
  end.

Definition wrap16 (n : Z) : Z := (n + 32768) mod 65536 - 32768.

Definition astype_int16 (x : float) : Z := wrap16 (double_to_int32 x).

(** The rational a finite binary64 value stands for. *)
Definition Q_of_sf (x : spec_float) : option Q :=
  match x with
  | S754_zero _ => Some (0 # 1)
  | S754_finite s m e =>
      Some (if 0 <=? e then (cond_Zopp s (Zpos m * 2 ^ e) # 1)
            else (cond_Zopp s (Zpos m) # Z.to_pos (2 ^ (- e))))
  | S754_infinity _ | S754_nan => None
  end.

(** Truncation toward zero of a rational: the quotient that rounds toward
    zero. *)
Definition Qtrunc (q : Q) : Z := Z.quot (Qnum q) (Zpos (Qden q)).

(** ** [groupby([hex_col, "band"])["value"].mean()] *)

(** A group key is the pair (cell identifier, band).  pandas sorts the group
    keys, so the groups are kept in an association list ordered by key. *)
Definition key : Type := (string * string)%type.

Definition key_compare (a b : key) : comparison :=
  match String_as_OT.compare (fst a) (fst b) with
  | Eq => String_as_OT.compare (snd a) (snd b)
  | c => c
  end.

Definition key_lt (a b : key) : Prop := key_compare a b = Lt.

(** What pandas' [group_mean] keeps for one group: the running sum, the
    compensation of the Kahan summation, the number of observations. *)
Record stats : Type := {
  sumx : float;
  compensation : float;
  nobs : Z
}.

Definition no_stats : stats :=
  {| sumx := 0%float; compensation := 0%float; nobs := 0 |}.

(** One sample more: the sample becomes a binary64 value;
    [y = val - compensation; t = sumx + y; compensation = t - sumx - y]
    (reset to 0 when it is NaN); [sumx = t]. *)
Definition kahan_add (a : stats) (v : Z) : stats :=
  let val := float_of_Z v in
  let y := PrimFloat.sub val (compensation a) in
  let t := PrimFloat.add (sumx a) y in
  let c := PrimFloat.sub (PrimFloat.sub t (sumx a)) y in
  {| sumx := t;
     compensation := if PrimFloat.eqb c c then c else 0%float;
     nobs := nobs a + 1 |}.

Definition observe (o : option stats) (v : Z) : stats :=
  match o with
  | None => kahan_add no_stats v
  | Some a => kahan_add a v
  end.

Fixpoint upsert (k : key) (v : Z) (acc : list (key * stats)) : list (key * stats) :=
  match acc with
  | [] => [(k, observe None v)]
  | (k', a) :: rest =>
      match key_compare k k' with
      | Lt => (k, observe None v) :: (k', a) :: rest
      | Eq => (k', observe (Some a) v) :: rest
      | Gt => (k', a) :: upsert k v rest
      end
  end.

Fixpoint find_key (k : key) (acc : list (key * stats)) : option stats :=
  match acc with
  | [] => None
  | (k', a) :: rest =>
      match key_compare k k' with
      | Eq => Some a
      | _ => find_key k rest
      end
  end.

(** Exact equality of two (cell, band) pairs. *)
Definition key_eqb (a b : key) : bool :=
  String.eqb (fst a) (fst b) && String.eqb (snd a) (snd b).

Definition groupby_sum {A : Type} (key_of : A -> key) (value_of : A -> Z)
    (rows : list A) : list (key * stats) :=
  fold_left (fun acc r => upsert (key_of r) (value_of r) acc) rows [].

(** The table of groups is kept in strictly increasing order of key. *)
Definition ordered (acc : list (key * stats)) : Prop :=
  StronglySorted key_lt (map fst acc).

(** Absorbing the samples of a group, one at a time. *)
Definition absorb (o : option stats) (vs : list Z) : option stats :=
  fold_left (fun o v => Some (observe o v)) vs o.

(** The mean of a group: its sum over its size, in binary64. *)
Definition mean_of (a : stats) : float :=
  PrimFloat.div (sumx a) (float_of_Z (nobs a)).

(** The statistics of a group of samples, taken in order; an empty group has
    none. *)
Definition stats_of (vs : list Z) : option stats :=
  match vs with
  | [] => None
  | _ => Some (fold_left kahan_add vs no_stats)
  end.

(** The arithmetic mean of a list of integer samples as the script gets it
    from pandas: the compensated binary64 sum of the samples in order, over
    their number. *)
Definition arithmetic_mean (vs : list Z) : float :=
  mean_of (fold_left kahan_add vs no_stats).

(** The exact sum of the samples, and the arithmetic mean as the
    specification words it: that sum over the number of samples, as one
    binary64 division. *)
Definition sum_Z (vs : list Z) : Z := fold_right Z.add 0 vs.

Definition exact_mean (vs : list Z) : float :=
  PrimFloat.div (float_of_Z (sum_Z vs)) (float_of_Z (Z.of_nat (List.length vs))).

(** The samples of the group [k]: the values of the rows whose key is
    exactly [k], in the order of the rows. *)
Definition group_values {A : Type} (key_of : A -> key) (value_of : A -> Z)
    (k : key) (rows : list A) : list Z :=
  map value_of (filter (fun r => key_eqb (key_of r) k) rows).

(** ** The data the script handles *)

Record band_info : Type := {
  resolution : float;
  zoom : pynum;
  bands : list string
}.

Definition BAND_GROUPS : list (string * band_info) :=
  [ ("vis_nir",
     {| resolution := 10.0%float; zoom := PyInt 12;
        bands := ["B02"; "B03"; "B04"; "B08"] |});
    ("swir_rededge",
     {| resolution := 20.0%float; zoom := PyFloat 11.0%float;
        bands := ["B05"; "B06"; "B07"; "B11"; "B12"] |}) ].

(** One pixel of the loaded cube, as a row of [data.to_dataframe()]: its
    projected coordinates and one column per band. *)
Record Pixel : Type := {
  px_y : float;
  px_x : float;
  px_values : list (string * Z)
}.

(** What [odc.stac.load] returns, as far as the script reads it. *)
Record Dataset : Type := {
  GeoTransform : string;     (* data.spatial_ref.GeoTransform *)
  crs_wkt : string;          (* data.spatial_ref.crs_wkt *)
  sizes_x : Z;               (* data.sizes["x"] *)
  sizes_y : Z;               (* data.sizes["y"] *)
  pixels : list Pixel
}.

(** A row of the long data frame, after [stack], [reset_index], the drops and
    the rename; [row_geometry] is the point column ((x, y), that is
    (longitude, latitude) once in EPSG:4326). *)
Record Row : Type := {
  row_y : float;
  row_x : float;
  row_band : string;
  row_value : Z;
  row_geometry : float * float
}.

(** A row of the aggregated frame: the three columns written to parquet. *)
Record HexRow : Type := {
  hex : string;
  band : string;
  value : Z
}.

Definition hex_key (r : HexRow) : key := (hex r, band r).

(** The aggregated frame; the name of its first column is
    ['hex' + str(hex_level)], kept as the level it is built from. *)
Record Frame : Type := {
  hex_col : pynum;
  records : list HexRow
}.

(** The arguments of the script's [print]. *)
Record LogLine : Type := {
  log_id : string;
  log_band_group : string;
  log_llcorner : list float;
  log_date : string;
  log_res : float;
  log_ratio : float;
  log_valid_frac : float
}.

(** What the script does to the outside, in order. *)
Inductive event : Type :=
| Print (l : LogLine)
| ToParquet (path : string) (df : Frame)
| Breakpoint.

Definition trace : Type := list event.

(** The file a trace leaves at [path]: the last frame a completed write put
    there. *)
Fixpoint file_at (path : string) (t : trace) : option Frame :=
  match t with
  | [] => None
  | ev :: rest =>
      match file_at path rest with
      | Some df => Some df
      | None =>
          match ev with
          | ToParquet p df => if String.eqb p path then Some df else None
          | _ => None
          end
      end
  end.

(** ** Effects: a trace threaded through fallible steps *)

Definition M (A : Type) : Type := trace -> result A * trace.

Definition ret {A : Type} (a : A) : M A := fun t => (Ok a, t).

Definition bindM {A B : Type} (m : M A) (k : A -> M B) : M B :=
  fun t =>
    match m t with
    | (Ok a, t') => k a t'
    | (Raise e, t') => (Raise e, t')
    end.

Definition lift {A : Type} (r : result A) : M A := fun t => (r, t).

Definition emit (ev : event) : M unit := fun t => (Ok tt, (t ++ [ev])%list).

Declare Scope io_scope.
Delimit Scope io_scope with io.
Notation "x <-- c ;; k" := (bindM c (fun x => k))
  (at level 100, c at next level, right associativity) : io_scope.
Notation "c >> k" := (bindM c (fun _ => k))
  (at level 100, right associativity) : io_scope.

(** [for x in xs: body(x)]: the first exception leaves the loop. *)
Fixpoint for_each {A : Type} (body : A -> M unit) (xs : list A) : M unit :=
  match xs with
  | [] => ret tt
  | x :: rest => (body x >> for_each body rest)%io
  end.

Definition TEST_DAY : string := "2023-12-01".

Section Script.

(** *** The libraries the script calls *)

(** A GeoJSON geometry ([item.geometry]). *)
Variable Geometry : Type.

Record Item : Type := {
  id : string;
  bbox : list float;
  date : string;            (* item.get_datetime().date() *)
  geometry : Geometry
}.

(** [float(gdf.to_crs("epsg:5070").area[0])] of the item's polygon. *)
Variable planar_area : Geometry -> float.

(** [h3.h3shape_to_cells(h3.geo_to_h3shape(geom), level)]. *)
Variable h3shape_to_cells : Geometry -> pynum -> list string.

(** [h3.latlng_to_cell(lat, lng, level)]. *)
Variable latlng_to_cell : float -> float -> pynum -> string.

(** [GeoDataFrame.to_crs] on one point: source CRS, target CRS, (x, y). *)
Variable to_crs : string -> string -> float * float -> float * float.

(** [odc.stac.load([item], bands=bands)]. *)
Variable load : Item -> list string -> result Dataset.

(** The builtin [float(s)] on a string. *)
Variable py_float : string -> result float.

(** [x ** n] on a float: the libm [pow], [OverflowError] on overflow. *)
Variable py_pow : float -> pynum -> result float.

(** How the outside answers an effect of the script ([print], [to_parquet],
    [breakpoint]): [Ok] when it completes, the exception it raises otherwise
    (a write that fails, a debugger session that is quit). *)
Variable outcome : event -> result unit.

(** [catalog.search(collections=[c], datetime=d).item_collection()]. *)
Variable item_collection : string -> string -> list Item.

(** An effect that completes is appended to the trace; one that raises is
    not: the trace records the effects that completed.  What a [to_parquet]
    that raises may have left on disk is outside the embedding. *)
Definition perform (ev : event) : M unit :=
  match outcome ev with
  | Ok _ => emit ev
  | Raise e => lift (Raise e)
  end.

(** *** Lines 85-86: the resolution check *)

Definition check_resolution (res : float) (data : Dataset) : result unit :=
  (tok <- py_index (split (GeoTransform data)) 1 ;;
   measured <- py_float tok ;;
   py_assert (PrimFloat.eqb res measured) "Resolution is donked up")%py.

(** *** Lines 89-95: pixels per cell and valid fraction *)

Definition diagnostics (area res : float) (num_tile_pixels : Z)
    (cells : list string) : result (float * float) :=
  (sq <- py_pow res (PyInt 2) ;;
   num_pixels <- py_truediv area sq ;;
   valid_frac <- py_truediv_int num_pixels num_tile_pixels ;;
   ratio <- py_truediv_int num_pixels (Z.of_nat (List.length cells)) ;;
   Ok (ratio, valid_frac))%py.

(** Section 4.5 of the specification, word for word, on binary64 values:
    [theoretical_pixels = area_m2 / resolution_m^2],
    [ratio = theoretical_pixels / num_cells],
    [valid_frac = theoretical_pixels / num_tile_pixels]. *)
Definition theoretical_pixels (area_m2 resolution_m_squared : float) : float :=
  PrimFloat.div area_m2 resolution_m_squared.

Definition spec_ratio (area_m2 resolution_m_squared num_cells : float) : float :=
  PrimFloat.div (theoretical_pixels area_m2 resolution_m_squared) num_cells.

Definition spec_valid_frac (area_m2 resolution_m_squared num_tile_pixels : float)
  : float :=
  PrimFloat.div (theoretical_pixels area_m2 resolution_m_squared) num_tile_pixels.

(** *** Lines 98-108: the long frame, reprojected to longitude/latitude *)

Definition stack (data : Dataset) : list (float * float * string * Z) :=
  flat_map (fun p => map (fun bv => (px_y p, px_x p, fst bv, snd bv))
                         (px_values p))
           (pixels data).

Definition to_rows (data : Dataset) : list Row :=
  map (fun r =>
         match r with
         | (y, x, b, v) =>
             {| row_y := y; row_x := x; row_band := b; row_value := v;
                row_geometry := to_crs (crs_wkt data) "epsg:4326" (x, y) |}
         end)
      (stack data).

(** *** Lines 110-119: cell of each row, mean per (cell, band), int16 *)

Definition cell_of (hex_level : pynum) (row : Row) : string :=
  latlng_to_cell (snd (row_geometry row)) (fst (row_geometry row)) hex_level.

Definition row_key (hex_level : pynum) (row : Row) : key :=
  (cell_of hex_level row, row_band row).

Definition aggregate (hex_level : pynum) (df : list Row) : Frame :=
  {| hex_col := hex_level;
     records :=
       map (fun g => {| hex := fst (fst g); band := snd (fst g);
                        value := astype_int16 (mean_of (snd g)) |})
           (groupby_sum (row_key hex_level) row_value df) |}.

(** *** Lines 89-133: what follows the check, for one band group *)

Definition bin_and_write (item : Item) (llcorner : list float)
    (area : float) (bg : string * band_info) (data : Dataset) : M unit :=
  let band_group := fst bg in
  let res := resolution (snd bg) in
  let hex_level := zoom (snd bg) in
  let num_tile_pixels := sizes_x data * sizes_y data in
  let cells := h3shape_to_cells (geometry item) hex_level in
  (d <-- lift (diagnostics area res num_tile_pixels cells) ;;
   let df := aggregate hex_level (to_rows data) in
   perform (Print {| log_id := id item; log_band_group := band_group;
                     log_llcorner := llcorner; log_date := date item;
                     log_res := res; log_ratio := fst d;
                     log_valid_frac := snd d |}) >>
   perform (ToParquet (id item ++ ".parquet") df))%io.

(** *** Lines 79-133: the body of the loop over [BAND_GROUPS] *)

Definition process_band_group (item : Item) (llcorner : list float)
    (area : float) (bg : string * band_info) : M unit :=
  (data <-- lift (load item (bands (snd bg))) ;;
   lift (check_resolution (resolution (snd bg)) data) >>
   bin_and_write item llcorner area bg data)%io.

(** The log line and the write of a unit that completes (lines 129 and 133),
    given its cube and its diagnostics. *)
Definition unit_events (item : Item) (llcorner : list float)
    (bg : string * band_info) (data : Dataset) (d : float * float) : trace :=
  [ Print {| log_id := id item; log_band_group := fst bg;
             log_llcorner := llcorner; log_date := date item;
             log_res := resolution (snd bg); log_ratio := fst d;
             log_valid_frac := snd d |};
    ToParquet (id item ++ ".parquet")
      (aggregate (zoom (snd bg)) (to_rows data)) ].

(** The loop of [process_one_item] over a table of band groups. *)
Definition process_band_groups (groups : list (string * band_info))
    (item : Item) : M unit :=
  let llcorner := firstn 2 (bbox item) in
  let area := planar_area (geometry item) in
  for_each (process_band_group item llcorner area) groups.

Definition process_one_item (item : Item) : M unit :=
  (process_band_groups BAND_GROUPS item >> perform Breakpoint)%io.

Definition main : M unit :=
  let collection_id := "sentinel-2-l2a" in
  let items := item_collection collection_id TEST_DAY in
  (item <-- lift (py_index items 0) ;; process_one_item item)%io.

End Script.

(** ** A small world to run the script in

    Stand-ins for the libraries, simple enough to evaluate: coordinates are
    already geographic, two hexagons split the plane at latitude zero, and
    decimal strings without exponent are read as floats. *)
Module Demo.

Definition digit_of (c : ascii) : option Z :=
  let n := Z.of_N (N_of_ascii c) in
  if (48 <=? n) && (n <=? 57) then Some (n - 48) else None.

(** Digits before and after the point: (mantissa, number of decimals). *)
Fixpoint read_decimal (s : string) (m : Z) (decimals : option Z)
  : option (Z * Z) :=
  match s with
  | EmptyString =>
      Some (m, match decimals with Some d => d | None => 0 end)
  | String c rest =>
      if Ascii.eqb c "."%char
      then match decimals with
           | None => read_decimal rest m (Some 0)
           | Some _ => None
           end
      else match digit_of c with
           | Some d =>
               read_decimal rest (10 * m + d)
                 (match decimals with Some k => Some (k + 1) | None => None end)
           | None => None
           end
  end.

Definition ValueError (s : string) : exn :=
  mk_exn "ValueError" ("could not convert string to float: " ++ s).

Definition py_float (s : string) : result float :=
  let (neg, body) :=
    match s with
    | String "-"%char rest => (true, rest)
    | _ => (false, s)
    end in
  match body with
  | EmptyString => Raise (ValueError s)
  | _ =>
      match read_decimal body 0 None with
      | Some (m, d) =>
          let f := PrimFloat.div (float_of_Z m) (float_of_Z (10 ^ d)) in
          Ok (if neg then PrimFloat.opp f else f)
      | None => Raise (ValueError s)
      end
  end.

(** Only the square is needed. *)
Definition py_pow (x : float) (n : pynum) : result float :=
  match n with
  | PyInt 2 =>
      let p := PrimFloat.mul x x in
      if is_infinity p && negb (is_infinity x)
      then Raise (OverflowError "(34, 'Numerical result out of range')")
      else Ok p
  | _ => Raise (mk_exn "NotImplementedError" "only squares")
  end.

Definition planar_area (_ : unit) : float := 120000000.0%float.

Definition h3shape_to_cells (_ : unit) (_ : pynum) : list string :=
  ["8c9e688000001ff"; "8c9e688000003ff"; "8c9e688000005ff"].

Definition latlng_to_cell (lat lng : float) (_ : pynum) : string :=
  if PrimFloat.ltb lat 0%float then "8c9e688000001ff" else "8c9e688000003ff".

Definition to_crs (_ _ : string) (p : float * float) : float * float := p.

Definition pixel (y x : float) (vs : list (string * Z)) : Pixel :=
  {| px_y := y; px_x := x; px_values := vs |}.

(** A 2 x 2 cube at 10 m: three pixels south of the equator, one north. *)
Definition cube10 : Dataset :=
  {| GeoTransform := "600000.0 10.0 0.0 7800040.0 0.0 -10.0";
     crs_wkt := "EPSG:4326";
     sizes_x := 2; sizes_y := 2;
     pixels :=
       [ pixel (-1)%float 1%float [("B02", 2469); ("B03", 2321)];
         pixel (-1)%float 2%float [("B02", 2471); ("B03", 2322)];
         pixel (-2)%float 1%float [("B02", 2470); ("B03", 2324)];
         pixel 1%float 1%float [("B02", 40000); ("B03", -1)] ] |}.

(** A 1 x 2 cube at 20 m. *)
Definition cube20 : Dataset :=
  {| GeoTransform := "600000.0 20.0 0.0 7800040.0 0.0 -20.0";
     crs_wkt := "EPSG:4326";
     sizes_x := 1; sizes_y := 2;
     pixels :=
       [ pixel (-1)%float 1%float [("B05", 1200); ("B11", 900)];
         pixel 1%float 1%float [("B05", 1201); ("B11", 903)] ] |}.

(** A cube whose pixels are 10 m wide and 20 m high. *)
Definition cube_oblong : Dataset :=
  {| GeoTransform := "600000.0 10.0 0.0 7800040.0 0.0 -20.0";
     crs_wkt := "EPSG:4326";
     sizes_x := 2; sizes_y := 1;
     pixels :=
       [ pixel (-1)%float 1%float [("B02", 2469)];
         pixel (-1)%float 2%float [("B02", 2471)] ] |}.

Definition item (name : string) : Item unit :=
  {| id := name; bbox := [157.0%float; (-21.75)%float; 158.0%float; (-20.75)%float];
     date := "2023-12-01"; geometry := tt |}.

(** [T57KUS] is served at the resolution of the bands asked for; [T20] only
    has 20 m rasters; [TOBL] has the oblong pixels. *)
Definition load (it : Item unit) (bands : list string) : result Dataset :=
  if String.eqb (id it) "T20" then Ok cube20
  else if String.eqb (id it) "TOBL" then Ok cube_oblong
  else match bands with
       | "B02" :: _ => Ok cube10
       | _ => Ok cube20
       end.

Definition item_collection (_ _ : string) : list (Item unit) :=
  [item "T57KUS"; item "T57KUT"].

(** Rows of one hexagon and one band, for the narrowing of the mean. *)
Definition row (lat : float) (b : string) (v : Z) : Row :=
  {| row_y := lat; row_x := 1%float; row_band := b; row_value := v;
     row_geometry := (1%float, lat) |}.

(** Mean 2469.75. *)
Definition rows_2469_75 : list Row :=
  [row (-1)%float "B02" 2469; row (-1)%float "B02" 2471;
   row (-1)%float "B02" 2470; row (-1)%float "B02" 2469].

(** Mean -0.5. *)
Definition rows_minus_half : list Row :=
  [row (-1)%float "B02" (-1); row (-1)%float "B02" 0].

(** Mean 40000, above what int16 holds. *)
Definition rows_bright : list Row :=
  [row (-1)%float "B02" 39999; row (-1)%float "B02" 40001].

(** The two entries of [BAND_GROUPS]. *)
Definition vis_nir : string * band_info :=
  ("vis_nir",
   {| resolution := 10.0%float; zoom := PyInt 12;
      bands := ["B02"; "B03"; "B04"; "B08"] |}).

Definition swir_rededge : string * band_info :=
  ("swir_rededge",
   {| resolution := 20.0%float; zoom := PyFloat 11.0%float;
      bands := ["B05"; "B06"; "B07"; "B11"; "B12"] |}).

Definition llcorner : list float := [157.0%float; (-21.75)%float].

(** Samples far beyond what a raster holds, in two orders. *)
Definition rows_huge : list Row :=
  [row (-1)%float "B02" (2 ^ 62); row (-1)%float "B02" 3;
   row (-1)%float "B02" (- 2 ^ 62)].

Definition rows_huge_reordered : list Row :=
  [row (-1)%float "B02" (2 ^ 62); row (-1)%float "B02" (- 2 ^ 62);
   row (-1)%float "B02" 3].

Definition aggregate := aggregate latlng_to_cell.

Definition diagnostics := diagnostics py_pow.

Definition check_resolution := check_resolution py_float.

(** Every effect completes. *)
Definition outcome (_ : event) : result unit := Ok tt.





Definition bin_and_write :=
  @bin_and_write unit h3shape_to_cells latlng_to_cell to_crs py_pow outcome.

Definition process_band_group :=
  process_band_group h3shape_to_cells latlng_to_cell to_crs
    load py_float py_pow outcome.

Definition process_band_groups :=
  process_band_groups planar_area h3shape_to_cells latlng_to_cell to_crs
    load py_float py_pow outcome.

Definition process_one_item :=
  process_one_item planar_area h3shape_to_cells latlng_to_cell to_crs
    load py_float py_pow outcome.

Definition main :=
  main planar_area h3shape_to_cells latlng_to_cell to_crs
    load py_float py_pow outcome item_collection.

End Demo.

(** ** [plot_utils.py]

    The plotting helpers act on a figure; what they do to it is logged.  A
    name used in a function body is looked up, when the body runs, among the
    names the module binds. *)
Module PlotUtils.

(** The names [plot_utils.py] binds at import: its three imports and its four
    functions. *)
Definition module_globals : list string :=
  ["h3"; "plt"; "cx"; "plot_df"; "plot_shape"; "plot_cells"; "plot_scatter"].

Definition NameError (name : string) : exn :=
  mk_exn "NameError" ("name '" ++ name ++ "' is not defined").

Definition global (name : string) : result unit :=
  if existsb (String.eqb name) module_globals then Ok tt
  else Raise (NameError name).

Section Plotting.

(** A shapely or H3 shape. *)
Variable Shape : Type.

(** A GeoDataFrame with a geometry column and a CRS. *)
Record GeoDataFrame : Type := {
  gdf_geometry : list Shape;
  gdf_crs : string
}.

(** [df.to_crs(epsg=n)]. *)
Variable to_crs : GeoDataFrame -> Z -> result GeoDataFrame.

(** [h3.cells_to_h3shape(cells)]. *)
Variable cells_to_h3shape : list string -> result Shape.

(** What reaches matplotlib and contextily; axes are numbered as created. *)
Inductive plot_event : Type :=
| Subplots (width height : Z) (ax : nat)
| SetVisible (ax : nat) (axis : string) (visible : bool)
| DfPlot (ax : nat) (df : GeoDataFrame) (column : option string)
| AddBasemap (ax : nat) (crs : string).

Definition P (A : Type) : Type := list plot_event -> result A * list plot_event.

Definition pret {A : Type} (a : A) : P A := fun log => (Ok a, log).

Definition pbind {A B : Type} (m : P A) (k : A -> P B) : P B :=
  fun log =>
    match m log with
    | (Ok a, log') => k a log'
    | (Raise e, log') => (Raise e, log')
    end.

Definition plift {A : Type} (r : result A) : P A := fun log => (r, log).

Definition draw (ev : plot_event) : P unit :=
  fun log => (Ok tt, (log ++ [ev])%list).

(** [plt.subplots(figsize=(w, h))]: a new figure, and its axes. *)
Definition subplots (w h : Z) : P nat :=
  fun log =>
    let ax := List.length log in
    (Ok ax, (log ++ [Subplots w h ax])%list).

Definition plot_df (df : GeoDataFrame) (column : option string)
    (ax : option nat) : P unit :=
  pbind (plift (to_crs df 3857)) (fun df =>
  pbind (match ax with
         | None => pbind (plift (global "plt")) (fun _ => subplots 8 8)
         | Some a => pret a
         end) (fun ax =>
  pbind (draw (SetVisible ax "x" false)) (fun _ =>
  pbind (draw (SetVisible ax "y" false)) (fun _ =>
  pbind (draw (DfPlot ax df column)) (fun _ =>
  pbind (plift (global "cx")) (fun _ =>
  draw (AddBasemap ax (gdf_crs df)))))))).

Definition plot_shape (shape : Shape) (ax : option nat) : P unit :=
  pbind (plift (global "gpd")) (fun _ =>
  let df := {| gdf_geometry := [shape]; gdf_crs := "EPSG:4326" |} in
  pbind (plift (global "plot_df")) (fun _ =>
  plot_df df None ax)).

Definition plot_cells (cells : list string) (ax : option nat) : P unit :=
  pbind (plift (global "h3")) (fun _ =>
  pbind (plift (cells_to_h3shape cells)) (fun shape =>
  pbind (plift (global "plot_shape")) (fun _ =>
  plot_shape shape ax))).

End Plotting.

End PlotUtils.

(** * Properties *)

(** ** The order on group keys *)

Lemma string_compare_refl (s : string) : String_as_OT.compare s s = Eq.
Proof.
  destruct (String_as_OT.compare_spec s s) as [_ | H | H]; trivial;
    exfalso; exact (irreflexivity H).
Qed.

Lemma string_compare_eq (a b : string) : String_as_OT.compare a b = Eq -> a = b.
Proof.
  intros H.
  destruct (String_as_OT.compare_spec a b) as [E | L | L]; try discriminate.
  exact E.
Qed.

Lemma string_compare_antisym (a b : string) :
  String_as_OT.compare b a = CompOpp (String_as_OT.compare a b).
Proof.
  destruct (String_as_OT.compare_spec a b) as [E | H | H]; simpl.
  - unfold String_as_OT.eq in E. subst. apply string_compare_refl.
  - destruct (String_as_OT.compare_spec b a) as [E | H' | H']; trivial.
    + unfold String_as_OT.eq in E. subst. exfalso; exact (irreflexivity H).
    + exfalso. exact (irreflexivity (transitivity H H')).
  - exact H.
Qed.

Lemma string_lt_trans (a b c : string) :
  String_as_OT.compare a b = Lt -> String_as_OT.compare b c = Lt ->
  String_as_OT.compare a c = Lt.
Proof.
  intros H1 H2.
  exact (@transitivity _ String_as_OT.lt _ a b c H1 H2).
Qed.

Lemma key_compare_refl (k : key) : key_compare k k = Eq.
Proof.
  unfold key_compare. now rewrite !string_compare_refl.
Qed.

Lemma key_compare_eq (a b : key) : key_compare a b = Eq -> a = b.
Proof.
  destruct a as [a1 a2], b as [b1 b2]. unfold key_compare; simpl.
  destruct (String_as_OT.compare a1 b1) eqn:E1; try discriminate.
  intros E2. apply string_compare_eq in E1, E2. now subst.
Qed.

Lemma key_compare_antisym (a b : key) :
  key_compare b a = CompOpp (key_compare a b).
Proof.
  unfold key_compare.
  rewrite (string_compare_antisym (fst a) (fst b)).
  destruct (String_as_OT.compare (fst a) (fst b)); simpl; trivial.
  apply string_compare_antisym.
Qed.

Lemma key_lt_trans (a b c : key) : key_lt a b -> key_lt b c -> key_lt a c.
Proof.
  destruct a as [a1 a2], b as [b1 b2], c as [c1 c2].
  unfold key_lt, key_compare; simpl.
  destruct (String_as_OT.compare a1 b1) eqn:E1; try discriminate;
    destruct (String_as_OT.compare b1 c1) eqn:E2; try discriminate; intros H1 H2.
  - apply string_compare_eq in E1, E2. subst.
    rewrite string_compare_refl. eapply string_lt_trans; eassumption.
  - apply string_compare_eq in E1. subst. now rewrite E2.
  - apply string_compare_eq in E2. subst. now rewrite E1.
  - now rewrite (string_lt_trans _ _ _ E1 E2).
Qed.

Lemma key_lt_irrefl (k : key) : ~ key_lt k k.
Proof.
  unfold key_lt. rewrite key_compare_refl. discriminate.
Qed.

Lemma key_compare_gt_lt (a b : key) : key_compare a b = Gt -> key_lt b a.
Proof.
  intros H. unfold key_lt. rewrite key_compare_antisym, H. reflexivity.
Qed.

Lemma key_eqb_eq (a b : key) : key_eqb a b = true <-> a = b.
Proof.
  destruct a as [a1 a2], b as [b1 b2]. unfold key_eqb; simpl.
  rewrite andb_true_iff, !String.eqb_eq. split.
  - intros [-> ->]. reflexivity.
  - intros E. inversion E. auto.
Qed.

Lemma key_eqb_sym (a b : key) : key_eqb a b = key_eqb b a.
Proof.
  unfold key_eqb. now rewrite (String.eqb_sym (fst a)), (String.eqb_sym (snd a)).
Qed.

Lemma key_eqb_compare (a b : key) :
  key_eqb a b = match key_compare a b with Eq => true | _ => false end.
Proof.
  destruct (key_compare a b) eqn:E.
  - apply key_eqb_eq. now apply key_compare_eq.
  - destruct (key_eqb a b) eqn:B; trivial.
    apply key_eqb_eq in B. subst. rewrite key_compare_refl in E. discriminate.
  - destruct (key_eqb a b) eqn:B; trivial.
    apply key_eqb_eq in B. subst. rewrite key_compare_refl in E. discriminate.
Qed.

(** ** The table of groups stays ordered, and holds each group's statistics *)

Lemma find_key_below (k : key) (acc : list (key * stats)) :
  Forall (key_lt k) (map fst acc) -> find_key k acc = None.
Proof.
  induction acc as [| [k' a] rest IH]; simpl; intros H; trivial.
  inversion H as [| ? ? Hk Hrest]; subst.
  unfold key_lt in Hk. rewrite Hk. auto.
Qed.

Lemma upsert_keys (k : key) (v : Z) (acc : list (key * stats)) (k' : key) :
  In k' (map fst (upsert k v acc)) -> k' = k \/ In k' (map fst acc).
Proof.
  induction acc as [| [k0 a] rest IH]; simpl.
  - intros [H | []]; auto.
  - destruct (key_compare k k0) eqn:E; simpl.
    + intros [H | H]; auto.
    + intros [H | [H | H]]; auto.
    + intros [H | H]; auto. destruct (IH H); auto.
Qed.

Lemma upsert_ordered (k : key) (v : Z) (acc : list (key * stats)) :
  ordered acc -> ordered (upsert k v acc).
Proof.
  unfold ordered.
  induction acc as [| [k0 a] rest IH]; simpl; intros H.
  - repeat constructor.
  - inversion H as [| ? ? Hrest Hall]; subst.
    destruct (key_compare k k0) eqn:E; simpl.
    + constructor; assumption.
    + constructor; [assumption |].
      constructor; [exact E |].
      eapply Forall_impl; [| exact Hall].
      intros x Hx. eapply key_lt_trans; eassumption.
    + constructor; [auto |].
      apply Forall_forall. intros x Hx.
      destruct (upsert_keys _ _ _ _ Hx) as [-> | Hin].
      * now apply key_compare_gt_lt.
      * rewrite Forall_forall in Hall. auto.
Qed.

Lemma find_key_upsert (k k' : key) (v : Z) (acc : list (key * stats)) :
  ordered acc ->
  find_key k' (upsert k v acc) =
  if key_eqb k' k then Some (observe (find_key k acc) v) else find_key k' acc.
Proof.
  unfold ordered.
  induction acc as [| [k0 a] rest IH]; simpl; intros H.
  - rewrite key_eqb_compare. now destruct (key_compare k' k).
  - inversion H as [| ? ? Hrest Hall]; subst.
    destruct (key_compare k k0) eqn:E; simpl.
    + apply key_compare_eq in E. subst k0.
      rewrite key_eqb_compare. now destruct (key_compare k' k).
    + rewrite key_eqb_compare.
      destruct (key_compare k' k) eqn:E'; trivial.
      rewrite find_key_below; trivial.
      eapply Forall_impl; [| exact Hall].
      intros x Hx. eapply key_lt_trans; eassumption.
    + rewrite (IH Hrest). rewrite key_eqb_compare.
      destruct (key_compare k' k0) eqn:E0; trivial.
      apply key_compare_eq in E0. subst k0.
      rewrite key_compare_antisym, E. reflexivity.
Qed.

Lemma find_key_In (k : key) (a : stats) (acc : list (key * stats)) :
  ordered acc -> (In (k, a) acc <-> find_key k acc = Some a).
Proof.
  unfold ordered.
  induction acc as [| [k0 a0] rest IH]; simpl; intros H.
  - split; [intros [] | discriminate].
  - inversion H as [| ? ? Hrest Hall]; subst.
    rewrite Forall_forall in Hall. split.
    + intros [E | Hin].
      * inversion E; subst. now rewrite key_compare_refl.
      * assert (Hlt : key_lt k0 k) by (apply Hall; now apply (in_map fst) in Hin).
        unfold key_lt in Hlt. rewrite key_compare_antisym, Hlt. simpl.
        now apply IH.
    + destruct (key_compare k k0) eqn:E; intros Hf.
      * apply key_compare_eq in E. inversion Hf; subst. now left.
      * right. now apply IH.
      * right. now apply IH.
Qed.

Lemma ordered_NoDup (acc : list (key * stats)) :
  ordered acc -> NoDup (map fst acc).
Proof.
  unfold ordered. induction 1 as [| k ks Hks IH Hall]; constructor; trivial.
  intros Hin. rewrite Forall_forall in Hall.
  exact (key_lt_irrefl (Hall _ Hin)).
Qed.

Lemma absorb_some (a : stats) (vs : list Z) :
  absorb (Some a) vs = Some (fold_left kahan_add vs a).
Proof.
  revert a. induction vs as [| v vs IH]; intros a; trivial.
  change (absorb (Some a) (v :: vs)) with (absorb (Some (kahan_add a v)) vs).
  now rewrite IH.
Qed.

Lemma absorb_none (vs : list Z) : absorb None vs = stats_of vs.
Proof.
  destruct vs as [| v vs]; trivial.
  change (absorb None (v :: vs)) with (absorb (Some (kahan_add no_stats v)) vs).
  now rewrite absorb_some.
Qed.

Section Groups.

Variable A : Type.
Variable key_of : A -> key.
Variable value_of : A -> Z.

Let step (acc : list (key * stats)) (r : A) : list (key * stats) :=
  upsert (key_of r) (value_of r) acc.

Lemma fold_upsert (rows : list A) (acc : list (key * stats)) :
  ordered acc ->
  ordered (fold_left step rows acc) /\
  forall k, find_key k (fold_left step rows acc) =
            absorb (find_key k acc) (group_values key_of value_of k rows).
Proof.
  revert acc. induction rows as [| r rows IH]; intros acc Hacc.
  - split; trivial.
  - simpl fold_left.
    destruct (IH (step acc r) (upsert_ordered _ _ Hacc)) as [Ho Hf].
    split; trivial. intros k. rewrite Hf. unfold step at 1.
    rewrite find_key_upsert by assumption.
    unfold group_values. simpl filter.
    rewrite (key_eqb_sym k).
    destruct (key_eqb (key_of r) k) eqn:E; trivial.
    apply key_eqb_eq in E. subst k. reflexivity.
Qed.

Lemma groupby_sum_ordered (rows : list A) :
  ordered (groupby_sum key_of value_of rows).
Proof.
  apply fold_upsert. constructor.
Qed.

Lemma groupby_sum_find (rows : list A) (k : key) :
  find_key k (groupby_sum key_of value_of rows) =
  stats_of (group_values key_of value_of k rows).
Proof.
  unfold groupby_sum.
  destruct (fold_upsert rows (acc := [])) as [_ H]; [constructor |].
  rewrite H. simpl find_key. apply absorb_none.
Qed.

Lemma group_values_nonempty (rows : list A) (k : key) :
  group_values key_of value_of k rows <> [] <-> In k (map key_of rows).
Proof.
  unfold group_values. induction rows as [| r rows IH]; simpl.
  - split; [congruence | intros []].
  - destruct (key_eqb (key_of r) k) eqn:E; simpl.
    + apply key_eqb_eq in E. split; [auto | discriminate].
    + rewrite IH. split; [auto |]. intros [H | H]; trivial.
      subst. rewrite (proj2 (key_eqb_eq _ _) eq_refl) in E. discriminate.
Qed.

Lemma group_values_perm (rows rows' : list A) (k : key) :
  Permutation rows rows' ->
  Permutation (group_values key_of value_of k rows)
              (group_values key_of value_of k rows').
Proof.
  unfold group_values.
  induction 1 as [| r l l' _ IH | r r' l | l l' l'' _ IH1 _ IH2]; simpl.
  - constructor.
  - destruct (key_eqb (key_of r) k); simpl; auto.
  - destruct (key_eqb (key_of r) k), (key_eqb (key_of r') k); simpl;
      auto using perm_swap.
  - eapply perm_trans; eassumption.
Qed.

End Groups.

Lemma sum_Z_perm (vs vs' : list Z) : Permutation vs vs' -> sum_Z vs = sum_Z vs'.
Proof.
  induction 1; simpl; lia.
Qed.

(** Two ordered tables that answer every lookup alike are the same table. *)
Lemma ordered_ext (l l' : list (key * stats)) :
  ordered l -> ordered l' ->
  (forall k, find_key k l = find_key k l') -> l = l'.
Proof.
  revert l'. induction l as [| [k a] t IH]; intros [| [k' a'] t'] Hl Hl' H.
  - reflexivity.
  - specialize (H k'). simpl in H. rewrite key_compare_refl in H. discriminate.
  - specialize (H k). simpl in H. rewrite key_compare_refl in H. discriminate.
  - unfold ordered in *. simpl in Hl, Hl'.
    inversion Hl as [| ? ? Ht Hall]; inversion Hl' as [| ? ? Ht' Hall']; subst.
    assert (Hk : key_compare k k' = Eq).
    { destruct (key_compare k k') eqn:E; trivial.
      - specialize (H k). simpl in H. rewrite key_compare_refl, E in H.
        rewrite find_key_below in H; [discriminate |].
        eapply Forall_impl; [| exact Hall'].
        intros x Hx. eapply key_lt_trans; eassumption.
      - specialize (H k'). simpl in H.
        rewrite key_compare_refl, key_compare_antisym, E in H. simpl in H.
        rewrite find_key_below in H; [discriminate |].
        apply key_compare_gt_lt in E.
        eapply Forall_impl; [| exact Hall].
        intros x Hx. eapply key_lt_trans; eassumption. }
    apply key_compare_eq in Hk. subst k'.
    assert (Ha : a = a').
    { specialize (H k). simpl in H. rewrite key_compare_refl in H. congruence. }
    subst a'. f_equal. apply IH; trivial.
    intros x. specialize (H x). simpl in H.
    destruct (key_compare x k) eqn:E; trivial.
    apply key_compare_eq in E. subst x.
    now rewrite !find_key_below.
Qed.

(** ** Aggregation (lines 110-119) *)

(** ** Binary64 sums of integers below 2^53 are exact

    Digits, shifts and rounding of the binary64 specification, as far as
    integer values need them. *)

Unset Implicit Arguments.

Lemma digits2_pos_bounds (p : positive) :
  2 ^ (Zpos (digits2_pos p) - 1) <= Zpos p < 2 ^ Zpos (digits2_pos p).
Proof.
  induction p as [p IH | p IH |]; cbn [digits2_pos].
  - rewrite Pos2Z.inj_succ.
    replace (Z.succ (Z.pos (digits2_pos p)) - 1) with (Z.succ (Z.pos (digits2_pos p) - 1)) by lia.
    rewrite !Z.pow_succ_r by lia. lia.
  - rewrite Pos2Z.inj_succ.
    replace (Z.succ (Z.pos (digits2_pos p)) - 1) with (Z.succ (Z.pos (digits2_pos p) - 1)) by lia.
    rewrite !Z.pow_succ_r by lia. lia.
  - simpl. lia.
Qed.

Lemma digits_unique (x d d' : Z) :
  0 < d -> 0 < d' ->
  2 ^ (d - 1) <= x < 2 ^ d -> 2 ^ (d' - 1) <= x < 2 ^ d' -> d = d'.
Proof.
  intros Hd Hd' [L U] [L' U'].
  destruct (Z.lt_trichotomy d d') as [H | [H | H]]; trivial; exfalso.
  - assert (2 ^ d <= 2 ^ (d' - 1)) by (apply Z.pow_le_mono_r; lia). lia.
  - assert (2 ^ d' <= 2 ^ (d - 1)) by (apply Z.pow_le_mono_r; lia). lia.
Qed.

Lemma digits2_pos_scaled (q p : positive) (k : Z) :
  0 <= k -> Zpos q = Zpos p * 2 ^ k ->
  Zpos (digits2_pos q) = Zpos (digits2_pos p) + k.
Proof.
  intros Hk E.
  apply (digits_unique (Zpos q)); try lia.
  - apply digits2_pos_bounds.
  - pose proof (digits2_pos_bounds p) as [L U].
    rewrite E.
    replace (Z.pos (digits2_pos p) + k - 1) with ((Z.pos (digits2_pos p) - 1) + k) by lia.
    rewrite !Z.pow_add_r by lia.
    assert (0 < 2 ^ k) by (apply Z.pow_pos_nonneg; lia).
    split; nia.
Qed.

Lemma digits2_pos_le_prec (p : positive) :
  Zpos p < 2 ^ 53 -> Zpos (digits2_pos p) <= 53.
Proof.
  intros H. pose proof (digits2_pos_bounds p) as [L _].
  destruct (Z.le_gt_cases (Zpos (digits2_pos p)) 53) as [|G]; trivial.
  assert (2 ^ 53 <= 2 ^ (Zpos (digits2_pos p) - 1)) by (apply Z.pow_le_mono_r; lia).
  lia.
Qed.

Lemma iter_xO_value (p n : positive) :
  Zpos (Pos.iter xO p n) = Zpos p * 2 ^ Zpos n.
Proof.
  induction n as [| n IH] using Pos.peano_ind.
  - simpl. lia.
  - rewrite Pos.iter_succ, Pos2Z.inj_succ, Z.pow_succ_r by lia.
    rewrite Pos2Z.inj_xO, IH. lia.
Qed.

Lemma iter_pos_nat (A : Type) (f : A -> A) (n : positive) (x : A) :
  iter_pos f n x = Nat.iter (Pos.to_nat n) f x.
Proof.
  revert x. induction n as [n IH | n IH |]; intros x; cbn [iter_pos].
  - rewrite !IH, Pos2Nat.inj_xI.
    replace (S (2 * Pos.to_nat n)) with (Pos.to_nat n + (Pos.to_nat n + 1))%nat by lia.
    rewrite !Nat.iter_add. simpl. reflexivity.
  - rewrite !IH, Pos2Nat.inj_xO.
    replace (2 * Pos.to_nat n)%nat with (Pos.to_nat n + Pos.to_nat n)%nat by lia.
    now rewrite Nat.iter_add.
  - reflexivity.
Qed.

Lemma shr_1_exact_nat (n : nat) (q m : positive) :
  Zpos q = Zpos m * 2 ^ Z.of_nat n ->
  Nat.iter n shr_1 (Build_shr_record (Zpos q) false false)
  = Build_shr_record (Zpos m) false false.
Proof.
  revert q. induction n as [| n IH]; intros q E.
  - simpl in *. f_equal. lia.
  - rewrite Nat.iter_succ_r.
    rewrite Nat2Z.inj_succ, Z.pow_succ_r in E by lia.
    destruct q as [q | q |]; try lia.
    cbn [shr_1 orb]. apply IH. lia.
Qed.

Lemma shr_exact (n q m : positive) (e : Z) :
  Zpos q = Zpos m * 2 ^ Zpos n ->
  shr (Build_shr_record (Zpos q) false false) e (Zpos n)
  = (Build_shr_record (Zpos m) false false, e + Zpos n).
Proof.
  intros E. unfold shr. f_equal.
  rewrite iter_pos_nat. apply shr_1_exact_nat.
  now rewrite positive_nat_Z.
Qed.

Lemma fexp_53 (e : Z) : -1021 <= e -> fexp prec emax e = e - 53.
Proof.
  intros H. unfold fexp, emin, prec, emax. lia.
Qed.

Lemma binary_round_aux_canonical (s : bool) (m : positive) (e : Z) :
  Zpos (digits2_pos m) = 53 -> -1074 <= e <= 971 ->
  binary_round_aux prec emax s (Zpos m) e loc_Exact = S754_finite s m e.
Proof.
  intros D He. unfold binary_round_aux, shr_fexp.
  cbn [Zdigits2 shr_record_of_loc]. rewrite D.
  rewrite fexp_53 by lia.
  replace (53 + e - 53 - e) with 0 by lia.
  cbn [shr shr_m loc_of_shr_record round_nearest_even Zdigits2].
  rewrite D, fexp_53 by lia.
  replace (53 + e - 53 - e) with 0 by lia.
  cbn [shr shr_m].
  replace (e <=? emax - prec) with true; trivial.
  symmetry. apply Z.leb_le. unfold emax, prec. lia.
Qed.

Lemma binary_round_aux_shift (s : bool) (M m j : positive) (e : Z) :
  Zpos M = Zpos m * 2 ^ Zpos j ->
  Zpos (digits2_pos m) = 53 -> -1074 <= e -> e + Zpos j <= 971 ->
  binary_round_aux prec emax s (Zpos M) e loc_Exact
  = S754_finite s m (e + Zpos j).
Proof.
  intros E D He Hj.
  assert (DM : Zpos (digits2_pos M) = 53 + Zpos j).
  { rewrite <- D. apply digits2_pos_scaled; lia. }
  unfold binary_round_aux, shr_fexp.
  cbn [Zdigits2 shr_record_of_loc]. rewrite DM.
  rewrite fexp_53 by lia.
  replace (53 + Zpos j + e - 53 - e) with (Zpos j) by lia.
  rewrite (shr_exact j M m e E).
  cbn [shr_m loc_of_shr_record round_nearest_even Zdigits2].
  rewrite D, fexp_53 by lia.
  replace (53 + (e + Zpos j) - 53 - (e + Zpos j)) with 0 by lia.
  cbn [shr shr_m].
  replace (e + Zpos j <=? emax - prec) with true; trivial.
  symmetry. apply Z.leb_le. unfold emax, prec. lia.
Qed.

Lemma binary_round_int (s : bool) (M p : positive) (k : Z) :
  0 <= k <= 1000 -> Zpos M = Zpos p * 2 ^ k -> Zpos p < 2 ^ 53 ->
  exists m,
    binary_round prec emax s M (- k)
    = S754_finite s m (Zpos (digits2_pos p) - 53)
    /\ Zpos m = Zpos p * 2 ^ (53 - Zpos (digits2_pos p))
    /\ Zpos (digits2_pos m) = 53.
Proof.
  intros Hk E Hp.
  pose proof (digits2_pos_le_prec p Hp) as Hd.
  set (d := Zpos (digits2_pos p)) in *.
  assert (Hd1 : 1 <= d) by (unfold d; lia).
  assert (DM : Zpos (digits2_pos M) = d + k)
    by (apply digits2_pos_scaled; lia).
  unfold binary_round. rewrite DM.
  replace (d + k + - k) with d by lia.
  rewrite fexp_53 by lia.
  unfold shl_align.
  destruct (d - 53 - - k) as [| j | j] eqn:J.
  - (* already aligned *)
    exists M. replace (- k) with (d - 53) by lia.
    assert (EM : Zpos M = Zpos p * 2 ^ (53 - d)) by (rewrite E; f_equal; f_equal; lia).
    assert (D53 : Zpos (digits2_pos M) = 53) by lia.
    split; [| split]; trivial.
    apply binary_round_aux_canonical; lia.
  - (* too many digits: shift right, exactly *)
    assert (exists m, Zpos m = Zpos p * 2 ^ (53 - d)) as [m Em].
    { exists (Z.to_pos (Zpos p * 2 ^ (53 - d))). rewrite Z2Pos.id; trivial.
      assert (0 < 2 ^ (53 - d)) by (apply Z.pow_pos_nonneg; lia). lia. }
    assert (Dm : Zpos (digits2_pos m) = 53).
    { rewrite (digits2_pos_scaled m p (53 - d)); fold d; lia. }
    exists m. split; [| split]; trivial.
    replace (d - 53) with (- k + Zpos j) by lia.
    apply binary_round_aux_shift; try lia.
    rewrite E, Em. rewrite <- Z.mul_assoc, <- Z.pow_add_r by lia.
    f_equal. f_equal. lia.
  - (* too few digits: shift left *)
    exists (Pos.iter xO M j).
    assert (EM : Zpos (Pos.iter xO M j) = Zpos p * 2 ^ (53 - d)).
    { rewrite iter_xO_value, E, <- Z.mul_assoc, <- Z.pow_add_r by lia.
      f_equal. f_equal. lia. }
    assert (D53 : Zpos (digits2_pos (Pos.iter xO M j)) = 53).
    { rewrite (digits2_pos_scaled _ p (53 - d)); fold d; lia. }
    split; [| split]; trivial.
    apply binary_round_aux_canonical; lia.
Qed.

Lemma bnZ_form (c : Z) :
  c <> 0 -> Z.abs c < 2 ^ 53 ->
  exists m e,
    bnZ c = S754_finite (c <? 0) m e
    /\ - 52 <= e <= 0
    /\ Zpos m = Z.abs c * 2 ^ (- e)
    /\ Zpos (digits2_pos m) = 53.
Proof.
  intros Hc Hb. unfold bnZ.
  destruct c as [| p | p]; [congruence | |]; cbn [binary_normalize Z.ltb Z.compare Z.abs] in *.
  - destruct (binary_round_int false p p 0) as (m & E & Em & Dm); try lia.
    pose proof (digits2_pos_le_prec p Hb).
    exists m, (Zpos (digits2_pos p) - 53).
    change (- 0) with 0 in E. rewrite E.
    repeat split; trivial; try lia.
    rewrite Em. f_equal. f_equal. lia.
  - destruct (binary_round_int true p p 0) as (m & E & Em & Dm); try lia.
    pose proof (digits2_pos_le_prec p Hb).
    exists m, (Zpos (digits2_pos p) - 53).
    change (- 0) with 0 in E. rewrite E.
    repeat split; trivial; try lia.
    rewrite Em. f_equal. f_equal. lia.
Qed.

Lemma bnZ_valid (c : Z) : Z.abs c < 2 ^ 53 -> valid_binary (bnZ c) = true.
Proof.
  intros Hb. destruct (Z.eq_dec c 0) as [-> | Hc]; [reflexivity |].
  destruct (bnZ_form c Hc Hb) as (m & e & E & He & _ & Dm).
  rewrite E. unfold valid_binary, bounded, canonical_mantissa.
  rewrite Dm, fexp_53 by lia.
  apply andb_true_intro. split.
  - apply Z.eqb_eq. lia.
  - apply Z.leb_le. unfold emax, prec. lia.
Qed.

Lemma bn_scaled (c k : Z) :
  0 <= k <= 1000 -> Z.abs c < 2 ^ 53 ->
  binary_normalize prec emax (c * 2 ^ k) (- k) false = bnZ c.
Proof.
  intros Hk Hb. unfold bnZ.
  assert (P : 0 < 2 ^ k) by (apply Z.pow_pos_nonneg; lia).
  destruct c as [| p | p]; [reflexivity | |].
  - destruct (Z.pos p * 2 ^ k) as [| M | M] eqn:EM; try lia.
    cbn [binary_normalize].
    destruct (binary_round_int false M p k) as (m & E & Em & _); try lia.
    destruct (binary_round_int false p p 0) as (m' & E' & Em' & _); try lia.
    change (- 0) with 0 in E'. rewrite E, E'. f_equal. lia.
  - destruct (Z.neg p * 2 ^ k) as [| M | M] eqn:EM; try lia.
    cbn [binary_normalize].
    destruct (binary_round_int true M p k) as (m & E & Em & _); try lia.
    destruct (binary_round_int true p p 0) as (m' & E' & Em' & _); try lia.
    change (- 0) with 0 in E'. rewrite E, E'. f_equal. lia.
Qed.

Lemma shl_align_value (m : positive) (e e' : Z) :
  e' <= e ->
  Zpos (fst (shl_align m e e')) = Zpos m * 2 ^ (e - e').
Proof.
  intros H. unfold shl_align.
  destruct (e' - e) as [| d | d] eqn:D; cbn [fst]; try lia.
  - replace (e - e') with 0 by lia. lia.
  - rewrite iter_xO_value. f_equal. f_equal. lia.
Qed.

Lemma cond_Zopp_sign (c K : Z) :
  0 <= K -> cond_Zopp (c <? 0) (Z.abs c * K) = c * K.
Proof.
  intros HK. destruct (c <? 0) eqn:S; cbn [cond_Zopp].
  - apply Z.ltb_lt in S. rewrite Z.abs_neq by lia. lia.
  - apply Z.ltb_ge in S. rewrite Z.abs_eq by lia. lia.
Qed.

Lemma aligned_value (c : Z) (m : positive) (e ez : Z) :
  - 52 <= e <= 0 -> ez <= e ->
  Zpos m = Z.abs c * 2 ^ (- e) ->
  cond_Zopp (c <? 0) (Zpos (fst (shl_align m e ez))) = c * 2 ^ (- ez).
Proof.
  intros He Hz Em.
  rewrite shl_align_value, Em by lia.
  rewrite <- Z.mul_assoc, <- Z.pow_add_r by lia.
  replace (- e + (e - ez)) with (- ez) by lia.
  apply cond_Zopp_sign. apply Z.pow_nonneg. lia.
Qed.

Lemma SFadd_int (a b : Z) :
  Z.abs a < 2 ^ 53 -> Z.abs b < 2 ^ 53 -> Z.abs (a + b) < 2 ^ 53 ->
  SFadd prec emax (bnZ a) (bnZ b) = bnZ (a + b).
Proof.
  intros Ha Hb Hab.
  destruct (Z.eq_dec a 0) as [-> | Na].
  { change (bnZ 0) with (S754_zero false). cbn [Z.add].
    destruct (Z.eq_dec b 0) as [-> | Nb]; [reflexivity |].
    destruct (bnZ_form b Nb Hb) as (m & e & E & _). now rewrite E. }
  destruct (bnZ_form a Na Ha) as (ma & ea & Ea & Hea & Ema & _).
  destruct (Z.eq_dec b 0) as [-> | Nb].
  { change (bnZ 0) with (S754_zero false). rewrite Z.add_0_r, Ea. reflexivity. }
  destruct (bnZ_form b Nb Hb) as (mb & eb & Eb & Heb & Emb & _).
  rewrite Ea, Eb. cbn [SFadd].
  rewrite (aligned_value a ma ea (Z.min ea eb)) by (trivial; lia).
  rewrite (aligned_value b mb eb (Z.min ea eb)) by (trivial; lia).
  rewrite <- Z.mul_add_distr_r.
  replace (Z.min ea eb) with (- (- Z.min ea eb)) at 2 by lia.
  apply bn_scaled; lia.
Qed.

Lemma SFsub_int (a b : Z) :
  Z.abs a < 2 ^ 53 -> Z.abs b < 2 ^ 53 -> Z.abs (a - b) < 2 ^ 53 ->
  SFsub prec emax (bnZ a) (bnZ b) = bnZ (a - b).
Proof.
  intros Ha Hb Hab.
  destruct (Z.eq_dec b 0) as [-> | Nb].
  { change (bnZ 0) with (S754_zero false). rewrite Z.sub_0_r.
    destruct (Z.eq_dec a 0) as [-> | Na]; [reflexivity |].
    destruct (bnZ_form a Na Ha) as (m & e & E & _). now rewrite E. }
  destruct (bnZ_form b Nb Hb) as (mb & eb & Eb & Heb & Emb & Dmb).
  destruct (Z.eq_dec a 0) as [-> | Na].
  { change (bnZ 0) with (S754_zero false). rewrite Eb. cbn [SFsub Z.sub Z.add].
    assert (Nb' : - b <> 0) by lia.
    assert (Hb' : Z.abs (- b) < 2 ^ 53) by (rewrite Z.abs_opp; lia).
    destruct (bnZ_form (- b) Nb' Hb') as (m' & e' & E' & He' & Em' & Dm').
    rewrite E'. rewrite Z.abs_opp in Em'.
    assert (De : e' = eb).
    { assert (Zpos (digits2_pos m') = Zpos (digits2_pos mb)) by lia.
      pose proof (digits2_pos_bounds mb). pose proof (digits2_pos_bounds m').
      rewrite Dmb in *. rewrite Dm' in *.
      destruct (Z.lt_trichotomy e' eb) as [L | [L | L]]; trivial; exfalso.
      - assert (Zpos m' = Zpos mb * 2 ^ (eb - e')).
        { rewrite Em', Emb, <- Z.mul_assoc, <- Z.pow_add_r by lia.
          f_equal. f_equal. lia. }
        assert (2 ^ 1 <= 2 ^ (eb - e')) by (apply Z.pow_le_mono_r; lia).
        change (2 ^ 1) with 2 in *. change (2 ^ (53 - 1)) with (2 ^ 52) in *.
        change (2 ^ 53) with (2 * 2 ^ 52) in *. nia.
      - assert (Zpos mb = Zpos m' * 2 ^ (e' - eb)).
        { rewrite Em', Emb, <- Z.mul_assoc, <- Z.pow_add_r by lia.
          f_equal. f_equal. lia. }
        assert (2 ^ 1 <= 2 ^ (e' - eb)) by (apply Z.pow_le_mono_r; lia).
        change (2 ^ 1) with 2 in *. change (2 ^ (53 - 1)) with (2 ^ 52) in *.
        change (2 ^ 53) with (2 * 2 ^ 52) in *. nia. }
    subst e'. f_equal.
    - destruct (b <? 0) eqn:S; [apply Z.ltb_lt in S | apply Z.ltb_ge in S];
        cbn [negb]; symmetry; [apply Z.ltb_ge | apply Z.ltb_lt]; lia.
    - lia. }
  destruct (bnZ_form a Na Ha) as (ma & ea & Ea & Hea & Ema & _).
  rewrite Ea, Eb. cbn [SFsub].
  rewrite (aligned_value a ma ea (Z.min ea eb)) by (trivial; lia).
  rewrite (aligned_value b mb eb (Z.min ea eb)) by (trivial; lia).
  rewrite <- Z.mul_sub_distr_r.
  replace (Z.min ea eb) with (- (- Z.min ea eb)) at 2 by lia.
  apply bn_scaled; lia.
Qed.

Lemma Prim2SF_float_of_Z (c : Z) :
  Z.abs c < 2 ^ 53 -> Prim2SF (float_of_Z c) = bnZ c.
Proof.
  intros H. unfold float_of_Z. apply Prim2SF_SF2Prim. now apply bnZ_valid.
Qed.

Lemma float_add_int (a b : Z) :
  Z.abs a < 2 ^ 53 -> Z.abs b < 2 ^ 53 -> Z.abs (a + b) < 2 ^ 53 ->
  PrimFloat.add (float_of_Z a) (float_of_Z b) = float_of_Z (a + b).
Proof.
  intros Ha Hb Hab. apply Prim2SF_inj.
  rewrite add_spec, !Prim2SF_float_of_Z by assumption.
  now apply SFadd_int.
Qed.

Lemma float_sub_int (a b : Z) :
  Z.abs a < 2 ^ 53 -> Z.abs b < 2 ^ 53 -> Z.abs (a - b) < 2 ^ 53 ->
  PrimFloat.sub (float_of_Z a) (float_of_Z b) = float_of_Z (a - b).
Proof.
  intros Ha Hb Hab. apply Prim2SF_inj.
  rewrite sub_spec, !Prim2SF_float_of_Z by assumption.
  now apply SFsub_int.
Qed.

Set Implicit Arguments.

(** The compensated sum of integers whose partial sums stay below 2^53 is
    their exact sum, and the compensation stays at zero. *)
Lemma kahan_add_exact (S v n : Z) :
  Z.abs S < 2 ^ 53 -> Z.abs v < 2 ^ 53 -> Z.abs (S + v) < 2 ^ 53 ->
  kahan_add {| sumx := float_of_Z S; compensation := 0%float; nobs := n |} v
  = {| sumx := float_of_Z (S + v); compensation := 0%float; nobs := n + 1 |}.
Proof.
  intros HS Hv HSv. unfold kahan_add. cbn [sumx compensation nobs].
  change 0%float with (float_of_Z 0).
  rewrite (float_sub_int v 0), Z.sub_0_r by (trivial; rewrite ?Z.sub_0_r; trivial; reflexivity).
  rewrite (float_add_int S v) by trivial.
  rewrite (float_sub_int (S + v) S) by (trivial; replace (S + v - S) with v by lia; trivial).
  replace (S + v - S) with v by lia.
  rewrite (float_sub_int v v) by (trivial; rewrite Z.sub_diag; reflexivity).
  rewrite Z.sub_diag. reflexivity.
Qed.

Lemma sum_Z_bound (vs : list Z) (B : Z) :
  Forall (fun v => Z.abs v <= B) vs ->
  Z.abs (sum_Z vs) <= Z.of_nat (List.length vs) * B.
Proof.
  induction 1 as [| v vs Hv _ IH]; cbn [sum_Z fold_right List.length].
  - simpl. lia.
  - fold (sum_Z vs). rewrite Nat2Z.inj_succ. lia.
Qed.

Lemma kahan_fold_exact (vs : list Z) (S n B : Z) :
  Forall (fun v => Z.abs v <= B) vs ->
  Z.abs S + Z.of_nat (List.length vs) * B < 2 ^ 53 ->
  fold_left kahan_add vs
    {| sumx := float_of_Z S; compensation := 0%float; nobs := n |}
  = {| sumx := float_of_Z (S + sum_Z vs); compensation := 0%float;
       nobs := n + Z.of_nat (List.length vs) |}.
Proof.
  intros H. revert S n.
  induction H as [| v vs Hv Hvs IH]; intros S n Hb;
    cbn [fold_left sum_Z fold_right List.length] in *.
  - now rewrite !Z.add_0_r.
  - fold (sum_Z vs). rewrite Nat2Z.inj_succ in *.
    assert (HB : 0 <= B) by lia.
    assert (0 <= Z.of_nat (List.length vs) * B) by lia.
    rewrite kahan_add_exact by lia.
    rewrite IH by lia.
    f_equal; [f_equal |]; lia.
Qed.

Lemma stats_of_exact (vs : list Z) (B : Z) :
  Forall (fun v => Z.abs v <= B) vs ->
  Z.of_nat (List.length vs) * B < 2 ^ 53 ->
  stats_of vs =
  match vs with
  | [] => None
  | _ => Some {| sumx := float_of_Z (sum_Z vs); compensation := 0%float;
                 nobs := Z.of_nat (List.length vs) |}
  end.
Proof.
  intros H Hb. unfold stats_of. destruct vs as [| v vs]; trivial.
  f_equal. change no_stats with
    {| sumx := float_of_Z 0; compensation := 0%float; nobs := 0 |}.
  now rewrite (@kahan_fold_exact _ 0 0 _ H) by (simpl Z.abs; lia).
Qed.

Lemma arithmetic_mean_exact (vs : list Z) (B : Z) :
  Forall (fun v => Z.abs v <= B) vs ->
  Z.of_nat (List.length vs) * B < 2 ^ 53 ->
  arithmetic_mean vs = exact_mean vs.
Proof.
  intros H Hb. unfold arithmetic_mean, exact_mean, mean_of.
  change no_stats with
    {| sumx := float_of_Z 0; compensation := 0%float; nobs := 0 |}.
  now rewrite (@kahan_fold_exact _ 0 0 _ H) by (simpl Z.abs; lia).
Qed.

Lemma group_values_bound (A : Type) (key_of : A -> key) (value_of : A -> Z)
    (k : key) (rows : list A) (B : Z) :
  Forall (fun r => Z.abs (value_of r) <= B) rows ->
  0 <= B ->
  Forall (fun v => Z.abs v <= B) (group_values key_of value_of k rows)
  /\ Z.of_nat (List.length (group_values key_of value_of k rows)) * B
     <= Z.of_nat (List.length rows) * B.
Proof.
  intros H HB. unfold group_values.
  induction H as [| r rows Hr _ [IH1 IH2]]; cbn [filter map List.length].
  - split; [constructor | lia].
  - destruct (key_eqb (key_of r) k); cbn [map List.length];
      rewrite ?Nat2Z.inj_succ; split; try constructor; trivial; lia.
Qed.

Lemma stats_of_perm (vs vs' : list Z) (B : Z) :
  Forall (fun v => Z.abs v <= B) vs ->
  Z.of_nat (List.length vs) * B < 2 ^ 53 ->
  Permutation vs vs' -> stats_of vs = stats_of vs'.
Proof.
  intros H Hb P.
  assert (H' : Forall (fun v => Z.abs v <= B) vs')
    by (eapply Permutation_Forall; eassumption).
  rewrite (stats_of_exact H Hb).
  rewrite (stats_of_exact H') by (now rewrite <- (Permutation_length P)).
  rewrite (sum_Z_perm P), (Permutation_length P).
  destruct vs as [| v vs], vs' as [| v' vs']; trivial.
  - apply Permutation_nil in P. discriminate.
  - apply Permutation_sym, Permutation_nil in P. discriminate.
Qed.

Lemma groupby_sum_perm (A : Type) (key_of : A -> key) (value_of : A -> Z)
    (rows rows' : list A) (B : Z) :
  Forall (fun r => Z.abs (value_of r) <= B) rows ->
  Z.of_nat (List.length rows) * B < 2 ^ 53 ->
  Permutation rows rows' ->
  groupby_sum key_of value_of rows = groupby_sum key_of value_of rows'.
Proof.
  intros H Hb P. apply ordered_ext; try apply groupby_sum_ordered.
  intros k. rewrite !groupby_sum_find.
  destruct rows as [| r rows].
  { apply Permutation_nil in P. now subst rows'. }
  assert (HB : 0 <= B).
  { inversion H as [| ? ? Hr _]; subst. lia. }
  destruct (group_values_bound key_of value_of k H HB) as [G1 G2].
  apply (stats_of_perm G1); [lia |].
  now apply group_values_perm.
Qed.

Lemma hex_key_of_group (g : key * stats) :
  hex_key {| hex := fst (fst g); band := snd (fst g);
             value := astype_int16 (mean_of (snd g)) |} = fst g.
Proof.
  now destruct g as [[c b] a].
Qed.

Lemma aggregate_keys (latlng_to_cell : float -> float -> pynum -> string)
    (hex_level : pynum) (df : list Row) :
  map hex_key (records (aggregate latlng_to_cell hex_level df)) =
  map fst (groupby_sum (row_key latlng_to_cell hex_level) row_value df).
Proof.
  unfold aggregate. simpl records. rewrite map_map.
  apply map_ext. intros g. apply hex_key_of_group.
Qed.

(** Every record of the aggregated frame carries the narrowed mean of the
    samples of its own group, and that group is not empty. *)
Lemma aggregate_record (latlng_to_cell : float -> float -> pynum -> string)
    (hex_level : pynum) (df : list Row) (r : HexRow) :
  In r (records (aggregate latlng_to_cell hex_level df)) ->
  let vs := group_values (row_key latlng_to_cell hex_level) row_value
              (hex_key r) df in
  vs <> [] /\ value r = astype_int16 (arithmetic_mean vs).
Proof.
  unfold aggregate. simpl records. rewrite in_map_iff.
  intros [[k a] [<- Hin]]. simpl fst; simpl snd.
  change (hex_key _) with (fst k, snd k). rewrite <- surjective_pairing.
  apply find_key_In in Hin; [| apply groupby_sum_ordered].
  rewrite groupby_sum_find in Hin.
  destruct (group_values _ _ k df) as [| v vs] eqn:E; [discriminate |].
  unfold stats_of in Hin. inversion Hin; subst a.
  split; [discriminate | reflexivity].
Qed.

(** ** The narrowing to int16 *)

Lemma trunc_sf_Qtrunc (x : spec_float) (q : Q) :
  Q_of_sf x = Some q -> trunc_sf x = Some (Qtrunc q).
Proof.
  destruct x as [s | s | | s m e]; simpl; try discriminate.
  - intros E. inversion E. reflexivity.
  - intros E. inversion E as [Eq]. clear E Eq. f_equal. unfold Qtrunc.
    destruct (0 <=? e) eqn:He; simpl Qnum; simpl Qden.
    + now rewrite Z.quot_1_r.
    + apply Z.leb_gt in He.
      assert (Hp : 0 < 2 ^ (- e)) by (apply Z.pow_pos_nonneg; lia).
      rewrite Z2Pos.id by assumption.
      rewrite Z.shiftr_div_pow2 by lia.
      destruct s; simpl cond_Zopp.
      * change (Z.neg m) with (- Z.pos m).
        rewrite Z.quot_opp_l by lia.
        now rewrite Z.quot_div_nonneg by lia.
      * now rewrite Z.quot_div_nonneg by lia.
Qed.

Lemma astype_int16_Qtrunc (x : float) (q : Q) :
  Q_of_sf (Prim2SF x) = Some q ->
  - 2 ^ 31 <= Qtrunc q < 2 ^ 31 ->
  astype_int16 x = wrap16 (Qtrunc q).
Proof.
  intros E [Hlo Hhi]. unfold astype_int16, double_to_int32.
  rewrite (trunc_sf_Qtrunc _ E).
  apply Z.leb_le in Hlo. apply Z.ltb_lt in Hhi.
  now rewrite Hlo, Hhi.
Qed.

Lemma wrap16_small (t : Z) : - 32768 <= t <= 32767 -> wrap16 t = t.
Proof.
  intros H. unfold wrap16. rewrite Z.mod_small; lia.
Qed.

Lemma wrap16_range (t : Z) : - 32768 <= wrap16 t <= 32767.
Proof.
  unfold wrap16. pose proof (Z.mod_pos_bound (t + 32768) 65536). lia.
Qed.

Lemma wrap16_congruent (t : Z) : (wrap16 t - t) mod 65536 = 0.
Proof.
  unfold wrap16.
  pose proof (Z.div_mod (t + 32768) 65536 ltac:(lia)) as E.
  replace ((t + 32768) mod 65536 - 32768 - t)
    with ((- ((t + 32768) / 65536)) * 65536) by lia.
  apply Z.mod_mul. lia.
Qed.

(** What truncation toward zero means: the magnitude is the integer part of
    the magnitude, and the sign is kept. *)
Lemma Qtrunc_toward_zero (q : Q) :
  (inject_Z (Z.abs (Qtrunc q)) <= Qabs q)%Q
  /\ (Qabs q < inject_Z (Z.abs (Qtrunc q) + 1))%Q
  /\ 0 <= Qtrunc q * Qnum q.
Proof.
  destruct q as [n d]. unfold Qtrunc, Qabs, Qle, Qlt, inject_Z.
  simpl Qnum; simpl Qden.
  assert (Ha : Z.abs (Z.quot n (Z.pos d)) = Z.abs n / Z.pos d).
  { rewrite <- Z.quot_abs by lia.
    rewrite Z.quot_div_nonneg by lia. reflexivity. }
  rewrite Ha. rewrite !Z.mul_1_r.
  pose proof (Z.mul_div_le (Z.abs n) (Z.pos d)).
  pose proof (Z.mul_succ_div_gt (Z.abs n) (Z.pos d)).
  repeat split; try lia.
  destruct (Z.quot_rem' n (Z.pos d)).
  pose proof (Z.quot_rem' n (Z.pos d)) as E.
  destruct (Z.le_gt_cases 0 n) as [Hn | Hn].
  - pose proof (Z.quot_pos n (Z.pos d)). nia.
  - assert (Z.quot n (Z.pos d) <= 0).
    { replace n with (- (- n)) by lia. rewrite Z.quot_opp_l by lia.
      pose proof (Z.quot_pos (- n) (Z.pos d)). lia. }
    nia.
Qed.

(** C5. Aggregation algorithm: every sample is keyed by the cell
    [latlng_to_cell lat lon level] of its point and by its band; the samples
    are grouped by exact equality of that pair; the output holds exactly one
    record for each pair that occurs among the samples (no pair twice, no pair
    missing, none that does not occur).  The record's value is the mean of the
    group's values narrowed to int16: the mean is the binary64 mean pandas
    computes, which is the exact sum over the count whenever the samples are
    bounded as rasters are; the narrowing keeps the value within 16 signed
    bits, and is the integer part of the mean reduced modulo 2^16. *)
Theorem aggregate_one_record_per_group
    (latlng_to_cell : float -> float -> pynum -> string)
    (hex_level : pynum) (df : list Row) :
  let key_of (row : Row) : key :=
    (latlng_to_cell (snd (row_geometry row)) (fst (row_geometry row)) hex_level,
     row_band row) in
  let out := records (aggregate latlng_to_cell hex_level df) in
  NoDup (map hex_key out)
  /\ (forall k, In k (map hex_key out) <-> In k (map key_of df))
  /\ (forall r, In r out ->
        let vs :=
          map row_value
            (filter (fun row => key_eqb (key_of row) (hex_key r)) df) in
        value r = astype_int16 (arithmetic_mean vs)
        /\ - 32768 <= value r <= 32767
        /\ (forall q,
              Q_of_sf (Prim2SF (arithmetic_mean vs)) = Some q ->
              - 2 ^ 31 <= Qtrunc q < 2 ^ 31 ->
              value r = (Qtrunc q + 32768) mod 65536 - 32768)
        /\ (forall B,
              Forall (fun v => Z.abs v <= B) vs ->
              Z.of_nat (List.length vs) * B < 2 ^ 53 ->
              arithmetic_mean vs
              = PrimFloat.div (float_of_Z (sum_Z vs))
                  (float_of_Z (Z.of_nat (List.length vs))))).
Proof.
  intros key_of out.
  change key_of with (row_key latlng_to_cell hex_level).
  subst out. split; [| split].
  - rewrite aggregate_keys. apply ordered_NoDup, groupby_sum_ordered.
  - intros k. rewrite aggregate_keys.
    rewrite <- (group_values_nonempty _ row_value).
    pose proof (groupby_sum_find (row_key latlng_to_cell hex_level) row_value df k) as F.
    pose proof (groupby_sum_ordered (row_key latlng_to_cell hex_level) row_value df) as O.
    split.
    + intros Hin. apply in_map_iff in Hin. destruct Hin as [[k' a] [E Hin]].
      simpl in E. subst k'. apply (find_key_In _ _ O) in Hin.
      rewrite Hin in F. intros Hnil. rewrite Hnil in F. discriminate.
    + intros Hne.
      destruct (group_values _ _ k df) as [| v vs]; [congruence |].
      apply (find_key_In _ _ O) in F. now apply (in_map fst) in F.
  - intros r Hin vs.
    destruct (aggregate_record _ _ _ _ Hin) as [_ Hv]. fold vs in Hv.
    split; [exact Hv |]. split; [rewrite Hv; apply wrap16_range |].
    split.
    + intros q Hq Hr. rewrite Hv. now apply astype_int16_Qtrunc.
    + intros B HB Hn. now apply (arithmetic_mean_exact HB).
Qed.

(** C6, as the script has it. Aggregation is order-independent for samples
    bounded as rasters are: when every sample is at most [B] in magnitude and
    the number of rows times [B] stays below 2^53 (so that the binary64 sums
    are exact), the records obtained from a permutation of the rows are a
    permutation of (indeed the same list as) the records obtained from the
    rows. *)
Theorem aggregate_permutation
    (latlng_to_cell : float -> float -> pynum -> string)
    (hex_level : pynum) (df df' : list Row) (B : Z) :
  Forall (fun row => Z.abs (row_value row) <= B) df ->
  Z.of_nat (List.length df) * B < 2 ^ 53 ->
  Permutation df df' ->
  Permutation (records (aggregate latlng_to_cell hex_level df))
              (records (aggregate latlng_to_cell hex_level df')).
Proof.
  intros H Hb P. unfold aggregate. simpl records.
  now rewrite (@groupby_sum_perm _ (row_key latlng_to_cell hex_level) row_value _ _ _ H Hb P).
Qed.

(** C10. The narrowing of each group's mean truncates toward zero: when the
    integer part of the mean fits in 16 signed bits, the stored value is that
    integer part; its magnitude is the largest integer not above the magnitude
    of the mean, and it does not change sign.  No rounding to nearest takes
    place. *)
Theorem aggregate_truncates_toward_zero
    (latlng_to_cell : float -> float -> pynum -> string)
    (hex_level : pynum) (df : list Row) (r : HexRow) (q : Q) :
  In r (records (aggregate latlng_to_cell hex_level df)) ->
  Q_of_sf (Prim2SF (arithmetic_mean
     (group_values (row_key latlng_to_cell hex_level) row_value (hex_key r) df)))
  = Some q ->
  - 32768 <= Qtrunc q <= 32767 ->
  value r = Qtrunc q
  /\ (inject_Z (Z.abs (value r)) <= Qabs q)%Q
  /\ (Qabs q < inject_Z (Z.abs (value r) + 1))%Q
  /\ 0 <= value r * Qnum q.
Proof.
  intros Hin Hq Hrange.
  destruct (aggregate_record _ _ _ _ Hin) as [_ Hv].
  assert (E : value r = Qtrunc q).
  { rewrite Hv, (astype_int16_Qtrunc _ Hq) by lia. now apply wrap16_small. }
  rewrite E. split; [reflexivity | apply Qtrunc_toward_zero].
Qed.

(** A mean of 2469.75 is stored as 2469, and a mean of -0.5 as 0. *)
Lemma aggregate_truncates_toward_zero_witness :
  (arithmetic_mean (map row_value Demo.rows_2469_75) = 2469.75%float
   /\ (5431037685399552 # 2199023255552 == 9879 # 4)%Q
   /\ 2469 = Qtrunc (5431037685399552 # 2199023255552))
  /\ (arithmetic_mean (map row_value Demo.rows_minus_half) = (-0.5)%float
      /\ (- 4503599627370496 # 9007199254740992 == - 1 # 2)%Q
      /\ 0 = Qtrunc (- 4503599627370496 # 9007199254740992)).
Proof.
  split; (split; [vm_compute; reflexivity |]); (split; [reflexivity |]).
  - refine (proj1 (@aggregate_truncates_toward_zero Demo.latlng_to_cell (PyInt 12)
                     Demo.rows_2469_75
                     {| hex := "8c9e688000001ff"; band := "B02"; value := 2469 |}
                     (5431037685399552 # 2199023255552) _ _ _)).
    + vm_compute. left. reflexivity.
    + vm_compute. reflexivity.
    + vm_compute. split; discriminate.
  - refine (proj1 (@aggregate_truncates_toward_zero Demo.latlng_to_cell (PyInt 12)
                     Demo.rows_minus_half
                     {| hex := "8c9e688000001ff"; band := "B02"; value := 0 |}
                     (- 4503599627370496 # 9007199254740992) _ _ _)).
    + vm_compute. left. reflexivity.
    + vm_compute. reflexivity.
    + vm_compute. split; discriminate.
Defined.

(** A mean of -0.5 is stored as 0. *)
Example minus_half_is_stored_as_zero :
  arithmetic_mean (map row_value Demo.rows_minus_half) = (-0.5)%float
  /\ records (Demo.aggregate (PyInt 12) Demo.rows_minus_half)
     = [ {| hex := "8c9e688000001ff"; band := "B02"; value := 0 |} ].
Proof.
  split; vm_compute; reflexivity.
Qed.

(** C3, as the script has it. A group whose mean has an integer part outside
    the 16-bit range (and within the 32-bit one) is stored, without any
    failure, as that integer part reduced modulo 2^16 into the 16-bit range:
    a value other than the integer part of the mean. *)
Theorem aggregate_wraps_out_of_range
    (latlng_to_cell : float -> float -> pynum -> string)
    (hex_level : pynum) (df : list Row) (r : HexRow) (q : Q) :
  In r (records (aggregate latlng_to_cell hex_level df)) ->
  Q_of_sf (Prim2SF (arithmetic_mean
     (group_values (row_key latlng_to_cell hex_level) row_value (hex_key r) df)))
  = Some q ->
  Qtrunc q < - 32768 \/ 32767 < Qtrunc q ->
  - 2 ^ 31 <= Qtrunc q < 2 ^ 31 ->
  value r = (Qtrunc q + 32768) mod 65536 - 32768
  /\ - 32768 <= value r <= 32767
  /\ (value r - Qtrunc q) mod 65536 = 0
  /\ value r <> Qtrunc q.
Proof.
  intros Hin Hq Hout Hrange.
  destruct (aggregate_record _ _ _ _ Hin) as [_ Hv].
  assert (E : value r = wrap16 (Qtrunc q)).
  { rewrite Hv. now apply astype_int16_Qtrunc. }
  rewrite E. pose proof (wrap16_range (Qtrunc q)).
  repeat split; try lia.
  - apply wrap16_congruent.
Qed.

(** A mean of 40000 is stored as 40000 - 65536. *)
Lemma aggregate_wraps_out_of_range_witness :
  Qtrunc (5497558138880000 # 137438953472) = 40000
  /\ (- 25536 = (Qtrunc (5497558138880000 # 137438953472) + 32768) mod 65536 - 32768
      /\ - 32768 <= - 25536 <= 32767
      /\ (- 25536 - Qtrunc (5497558138880000 # 137438953472)) mod 65536 = 0
      /\ - 25536 <> Qtrunc (5497558138880000 # 137438953472)).
Proof.
  split; [reflexivity |].
  refine (@aggregate_wraps_out_of_range Demo.latlng_to_cell (PyInt 12)
            Demo.rows_bright
            {| hex := "8c9e688000001ff"; band := "B02"; value := - 25536 |}
            (5497558138880000 # 137438953472) _ _ _ _).
  - vm_compute. left. reflexivity.
  - vm_compute. reflexivity.
  - right. vm_compute. reflexivity.
  - vm_compute. split; [discriminate | reflexivity].
Defined.

(** C3 as stated fails: the group of [Demo.rows_bright] has mean 40000, above
    32767; the aggregation returns a frame (it has no failure to report), and
    the value it stores is neither of the bounds of the 16-bit range: it is
    40000 reduced modulo 2^16. *)
Lemma aggregate_wraps_counterexample :
  arithmetic_mean (map row_value Demo.rows_bright) = 40000%float
  /\ records (Demo.aggregate (PyInt 12) Demo.rows_bright)
     = [ {| hex := "8c9e688000001ff"; band := "B02"; value := 40000 - 65536 |} ]
  /\ 40000 - 65536 <> 32767
  /\ (40000 - 65536) mod 65536 = 40000 mod 65536.
Proof.
  split; [vm_compute; reflexivity |].
  split; [vm_compute; reflexivity |].
  split; [discriminate | reflexivity].
Qed.

(** ** The loop over the band groups *)

Lemma for_each_app (A : Type) (body : A -> M unit) (xs ys : list A) (t : trace) :
  for_each body (xs ++ ys)%list t =
  match for_each body xs t with
  | (Ok _, t') => for_each body ys t'
  | (Raise e, t') => (Raise e, t')
  end.
Proof.
  revert t. induction xs as [| x xs IH]; intros t; simpl.
  - reflexivity.
  - unfold bindM. destruct (body x t) as [[[] | e] t']; trivial.
Qed.

Section ScriptProperties.

Variable Geometry : Type.
Variable planar_area : Geometry -> float.
Variable h3shape_to_cells : Geometry -> pynum -> list string.
Variable latlng_to_cell : float -> float -> pynum -> string.
Variable to_crs : string -> string -> float * float -> float * float.
Variable load : Item Geometry -> list string -> result Dataset.
Variable py_float : string -> result float.
Variable py_pow : float -> pynum -> result float.
Variable outcome : event -> result unit.
Variable item_collection : string -> string -> list (Item Geometry).

Local Abbreviation unit_of :=
  (process_band_group h3shape_to_cells latlng_to_cell to_crs load py_float py_pow
     outcome).
Local Abbreviation units_of :=
  (process_band_groups planar_area h3shape_to_cells latlng_to_cell to_crs
     load py_float py_pow outcome).
Local Abbreviation the_rest :=
  (bin_and_write h3shape_to_cells latlng_to_cell to_crs py_pow outcome).

(** C1, as the script has it. Nothing catches an exception inside the loop:
    when the band groups before [bg] complete and the unit of [bg] raises
    [e], the loop stops with [e]; the band groups after [bg] contribute
    nothing to the result or to the trace, so they are not processed. *)
Theorem failure_ends_the_loop
    (item : Item Geometry) (before after : list (string * band_info))
    (bg : string * band_info) (e : exn) (t t1 t2 : trace) :
  units_of before item t = (Ok tt, t1) ->
  unit_of item (firstn 2 (bbox item)) (planar_area (geometry item)) bg t1
    = (Raise e, t2) ->
  units_of (before ++ bg :: after)%list item t = (Raise e, t2).
Proof.
  unfold process_band_groups. intros Hbefore Hbg.
  rewrite for_each_app, Hbefore. cbn [for_each].
  change (bindM ?m ?k t1) with
    (match m t1 with
     | (Ok a, t') => k a t'
     | (Raise e', t') => (Raise e', t')
     end).
  now rewrite Hbg.
Qed.

(** C2, as the script has it. When the second coefficient of the
    GeoTransform, read as a float, is not equal to the configured
    resolution, the unit stops with [AssertionError] and the fixed message
    "Resolution is donked up"; nothing has been printed or written, so the
    unit does not go on to binning or aggregation. *)
Theorem mismatch_raises_AssertionError
    (item : Item Geometry) (llcorner : list float) (area : float)
    (bg : string * band_info) (data : Dataset) (tok : string)
    (measured : float) (t : trace) :
  load item (bands (snd bg)) = Ok data ->
  nth_error (split (GeoTransform data)) 1 = Some tok ->
  py_float tok = Ok measured ->
  PrimFloat.eqb (resolution (snd bg)) measured = false ->
  unit_of item llcorner area bg t
    = (Raise (AssertionError "Resolution is donked up"), t).
Proof.
  intros Hload Htok Hfloat Hne.
  unfold process_band_group, bindM, lift, check_resolution, py_index.
  rewrite Hload, Htok. simpl. rewrite Hfloat. simpl. rewrite Hne. reflexivity.
Qed.

(** C9. The check reads the second coefficient of the GeoTransform (the
    pixel width) only: when that one equals the configured resolution the
    check passes and the unit goes on with the rest of the loop body, even
    though the sixth coefficient (the pixel height) differs from the
    configured resolution. *)
Theorem check_reads_pixel_width_only
    (item : Item Geometry) (llcorner : list float) (area : float)
    (bg : string * band_info) (data : Dataset)
    (tok_x tok_y : string) (dx dy : float) (t : trace) :
  load item (bands (snd bg)) = Ok data ->
  nth_error (split (GeoTransform data)) 1 = Some tok_x ->
  py_float tok_x = Ok dx ->
  PrimFloat.eqb (resolution (snd bg)) dx = true ->
  nth_error (split (GeoTransform data)) 5 = Some tok_y ->
  py_float tok_y = Ok dy ->
  PrimFloat.eqb (resolution (snd bg)) dy = false ->
  check_resolution py_float (resolution (snd bg)) data = Ok tt
  /\ unit_of item llcorner area bg t = the_rest item llcorner area bg data t.
Proof.
  intros Hload Hx Hfx Heq _ _ _.
  assert (C : check_resolution py_float (resolution (snd bg)) data = Ok tt).
  { unfold check_resolution, py_index. rewrite Hx. simpl.
    rewrite Hfx. simpl. now rewrite Heq. }
  split; trivial.
  unfold process_band_group, bindM, lift. now rewrite Hload, C.
Qed.

(** C4. The diagnostics are the formulas of the specification: whenever
    the squared resolution and the two counts are floats to divide by (the
    power and the conversions succeed and give nonzero values, as they do for
    positive inputs in range), the script computes exactly
    [ratio = (area / resolution^2) / num_cells] and
    [valid_frac = (area / resolution^2) / num_tile_pixels], from these
    scalars alone and without touching the trace. *)
Theorem diagnostics_formulas
    (area res : float) (num_tile_pixels : Z) (cells : list string)
    (res_squared num_cells_f num_tile_pixels_f : float) :
  py_pow res (PyInt 2) = Ok res_squared ->
  PrimFloat.eqb res_squared 0%float = false ->
  py_float_of_int (Z.of_nat (List.length cells)) = Ok num_cells_f ->
  PrimFloat.eqb num_cells_f 0%float = false ->
  py_float_of_int num_tile_pixels = Ok num_tile_pixels_f ->
  PrimFloat.eqb num_tile_pixels_f 0%float = false ->
  diagnostics py_pow area res num_tile_pixels cells
  = Ok (spec_ratio area res_squared num_cells_f,
        spec_valid_frac area res_squared num_tile_pixels_f).
Proof.
  intros Hsq Hsq0 Hc Hc0 Hp Hp0.
  unfold diagnostics, py_truediv_int, py_truediv.
  rewrite Hsq. simpl. rewrite Hsq0. simpl.
  rewrite Hp. simpl. rewrite Hp0. simpl.
  rewrite Hc. simpl. rewrite Hc0. reflexivity.
Qed.

(** C8, as the script has it. [main] hands the first item of the catalog
    result to [process_one_item] and nothing else: the other items are not
    processed, an empty result raises [IndexError], and what comes back is
    [None], not a sequence of outcomes. *)
Theorem main_processes_first_item_only (t : trace) :
  main planar_area h3shape_to_cells latlng_to_cell to_crs load py_float
    py_pow outcome item_collection t
  = match item_collection "sentinel-2-l2a" TEST_DAY with
    | [] => (Raise IndexError, t)
    | first :: _ =>
        process_one_item planar_area h3shape_to_cells latlng_to_cell to_crs
          load py_float py_pow outcome first t
    end.
Proof.
  unfold main, bindM, lift, py_index.
  now destruct (item_collection "sentinel-2-l2a" TEST_DAY).
Qed.

End ScriptProperties.

(** ** The script at work in the small world *)

Example band_groups_are_the_two_entries :
  BAND_GROUPS = [Demo.vis_nir; Demo.swir_rededge].
Proof. reflexivity. Qed.

(** The item [T20] has 20 m rasters only: its first unit fails the check, and
    the loop ends there. *)
Lemma failure_ends_the_loop_witness :
  Demo.process_band_groups ([] ++ Demo.vis_nir :: [Demo.swir_rededge])%list
    (Demo.item "T20") []
  = (Raise (AssertionError "Resolution is donked up"), []).
Proof.
  apply (@failure_ends_the_loop unit Demo.planar_area Demo.h3shape_to_cells
           Demo.latlng_to_cell Demo.to_crs Demo.load Demo.py_float Demo.py_pow Demo.outcome
           (Demo.item "T20") [] [Demo.swir_rededge] Demo.vis_nir
           (AssertionError "Resolution is donked up") [] [] []).
  - reflexivity.
  - vm_compute. reflexivity.
Defined.

(** C1 as stated fails: for [T20] the unit of [vis_nir] raises, and
    [process_one_item] ends with that exception and an empty trace, although the
    unit of [swir_rededge], run on its own, completes and writes its file. *)
Lemma sibling_is_not_processed_counterexample :
  Demo.process_one_item (Demo.item "T20") []
  = (Raise (AssertionError "Resolution is donked up"), [])
  /\ file_at "T20.parquet" (snd (Demo.process_one_item (Demo.item "T20") [])) = None
  /\ fst (Demo.process_band_group (Demo.item "T20") Demo.llcorner
            (Demo.planar_area tt) Demo.swir_rededge []) = Ok tt
  /\ (exists df,
        file_at "T20.parquet"
          (snd (Demo.process_band_group (Demo.item "T20") Demo.llcorner
                  (Demo.planar_area tt) Demo.swir_rededge [])) = Some df).
Proof.
  split; [vm_compute; reflexivity |].
  split; [vm_compute; reflexivity |].
  split; [vm_compute; reflexivity |].
  eexists. vm_compute. reflexivity.
Qed.

(** A 20 m cube offered for the 10 m band group. *)
Lemma mismatch_raises_AssertionError_witness :
  Demo.process_band_group (Demo.item "T20") Demo.llcorner 120000000.0%float
    Demo.vis_nir []
  = (Raise (AssertionError "Resolution is donked up"), []).
Proof.
  apply (@mismatch_raises_AssertionError unit Demo.h3shape_to_cells
           Demo.latlng_to_cell Demo.to_crs Demo.load Demo.py_float Demo.py_pow Demo.outcome
           (Demo.item "T20") Demo.llcorner 120000000.0%float Demo.vis_nir
           Demo.cube20 "20.0" 20.0%float []).
  - reflexivity.
  - vm_compute. reflexivity.
  - vm_compute. reflexivity.
  - vm_compute. reflexivity.
Defined.

(** C2 as stated fails: the exception is an [AssertionError], not a
    [ResolutionMismatchError], and its message is the same for a declared 10
    against a measured 20 as for a declared 20 against a measured 10: it names
    neither value. *)
Lemma mismatch_error_counterexample :
  Demo.check_resolution 10.0%float Demo.cube20
  = Raise {| exn_class := "AssertionError"; exn_msg := "Resolution is donked up" |}
  /\ Demo.check_resolution 20.0%float Demo.cube10
     = Raise {| exn_class := "AssertionError"; exn_msg := "Resolution is donked up" |}
  /\ String.eqb "AssertionError" "ResolutionMismatchError" = false.
Proof.
  repeat split; vm_compute; reflexivity.
Qed.

(** Pixels 10 m wide and 20 m high pass the check of the 10 m band group. *)
Lemma check_reads_pixel_width_only_witness :
  Demo.check_resolution 10.0%float Demo.cube_oblong = Ok tt
  /\ Demo.process_band_group (Demo.item "TOBL") Demo.llcorner
       120000000.0%float Demo.vis_nir []
     = Demo.bin_and_write (Demo.item "TOBL") Demo.llcorner 120000000.0%float
         Demo.vis_nir Demo.cube_oblong [].
Proof.
  apply (@check_reads_pixel_width_only unit Demo.h3shape_to_cells
           Demo.latlng_to_cell Demo.to_crs Demo.load Demo.py_float Demo.py_pow Demo.outcome
           (Demo.item "TOBL") Demo.llcorner 120000000.0%float Demo.vis_nir
           Demo.cube_oblong "10.0" "-20.0" 10.0%float (-20.0)%float []).
  - reflexivity.
  - vm_compute. reflexivity.
  - vm_compute. reflexivity.
  - vm_compute. reflexivity.
  - vm_compute. reflexivity.
  - vm_compute. reflexivity.
  - vm_compute. reflexivity.
Defined.

(** The example of the specification: 120,000,000 m2 at 10 m on a raster of
    1,200 x 1,000 pixels gives 1,200,000 theoretical pixels and a valid
    fraction of 1.0 (and 400,000 pixels per cell over three cells). *)
Lemma diagnostics_formulas_witness :
  Demo.diagnostics 120000000.0%float 10.0%float (1200 * 1000)
    (Demo.h3shape_to_cells tt (PyInt 12))
  = Ok (spec_ratio 120000000.0%float 100.0%float 3.0%float,
        spec_valid_frac 120000000.0%float 100.0%float 1200000.0%float)
  /\ theoretical_pixels 120000000.0%float 100.0%float = 1200000.0%float
  /\ spec_valid_frac 120000000.0%float 100.0%float 1200000.0%float = 1.0%float.
Proof.
  split; [| split; vm_compute; reflexivity].
  apply (@diagnostics_formulas Demo.py_pow 120000000.0%float 10.0%float
           (1200 * 1000) (Demo.h3shape_to_cells tt (PyInt 12))
           100.0%float 3.0%float 1200000.0%float);
    vm_compute; reflexivity.
Defined.

(** Two orders of the same four rows, none above 40001 in magnitude. *)
Lemma aggregate_permutation_witness :
  Permutation
    (records (Demo.aggregate (PyInt 12)
                (Demo.rows_bright ++ Demo.rows_minus_half)%list))
    (records (Demo.aggregate (PyInt 12)
                (Demo.rows_minus_half ++ Demo.rows_bright)%list)).
Proof.
  apply (@aggregate_permutation Demo.latlng_to_cell (PyInt 12)
           (Demo.rows_bright ++ Demo.rows_minus_half)%list
           (Demo.rows_minus_half ++ Demo.rows_bright)%list 40001).
  - repeat constructor; simpl; lia.
  - simpl. lia.
  - apply Permutation_app_comm.
Defined.

(** C6 as stated fails: the three rows of [Demo.rows_huge] and their
    reordering are permutations of one another; the binary64 sum of the first
    order loses the 3 next to 2^62 and gives mean 0, the second order gives
    mean 1. *)
Lemma aggregate_order_counterexample :
  Permutation Demo.rows_huge Demo.rows_huge_reordered
  /\ records (Demo.aggregate (PyInt 12) Demo.rows_huge)
     = [ {| hex := "8c9e688000001ff"; band := "B02"; value := 0 |} ]
  /\ records (Demo.aggregate (PyInt 12) Demo.rows_huge_reordered)
     = [ {| hex := "8c9e688000001ff"; band := "B02"; value := 1 |} ].
Proof.
  split; [| split].
  - unfold Demo.rows_huge, Demo.rows_huge_reordered.
    apply perm_skip, perm_swap.
  - vm_compute. reflexivity.
  - vm_compute. reflexivity.
Qed.

(** C7, on the script. Both units of the item [T57KUS] write to
    ["T57KUS.parquet"]: the path is built from the item's id alone.  The frame
    of [swir_rededge] replaces the frame of [vis_nir], which no file holds once
    [process_one_item] is done. *)
Theorem units_share_one_path :
  exists (l1 l2 : LogLine) (f1 f2 : Frame),
    Demo.process_one_item (Demo.item "T57KUS") []
    = (Ok tt, [Print l1; ToParquet "T57KUS.parquet" f1;
               Print l2; ToParquet "T57KUS.parquet" f2; Breakpoint])
    /\ log_band_group l1 = "vis_nir" /\ hex_col f1 = PyInt 12
    /\ log_band_group l2 = "swir_rededge" /\ hex_col f2 = PyFloat 11.0%float
    /\ file_at "T57KUS.parquet"
         (snd (Demo.process_one_item (Demo.item "T57KUS") [])) = Some f2
    /\ map band (records f2) = ["B05"; "B11"; "B05"; "B11"]
    /\ map band (records f1) = ["B02"; "B03"; "B02"; "B03"].
Proof.
  do 4 eexists. split; [vm_compute; reflexivity |].
  repeat split; vm_compute; reflexivity.
Qed.

(** The path of a unit does not depend on its band group: whatever the band
    group, a unit that completes appends one log line and one write to
    [id ++ ".parquet"]. *)
Lemma unit_writes_to_item_path (Geometry : Type)
    (h3shape_to_cells : Geometry -> pynum -> list string)
    (latlng_to_cell : float -> float -> pynum -> string)
    (to_crs : string -> string -> float * float -> float * float)
    (py_pow : float -> pynum -> result float)
    (outcome : event -> result unit)
    (item : Item Geometry) (llcorner : list float) (area : float)
    (bg : string * band_info) (data : Dataset) (t t' : trace) :
  bin_and_write h3shape_to_cells latlng_to_cell to_crs py_pow outcome item
    llcorner area bg data t = (Ok tt, t') ->
  exists l df, t' = (t ++ [Print l; ToParquet (id item ++ ".parquet") df])%list.
Proof.
  unfold bin_and_write, bindM, perform, emit, lift.
  destruct (diagnostics _ _ _ _ _) as [d | e]; [| discriminate].
  destruct (outcome (Print _)) as [[] | e]; [| discriminate].
  destruct (outcome (ToParquet _ _)) as [[] | e]; [| discriminate].
  intros H. inversion H. rewrite <- app_assoc. simpl. eauto.
Qed.

(** C8 as stated fails: the catalog of the small world answers two tiles,
    [main] does what [process_one_item] does on the first, and leaves no file
    for the second, which [process_one_item] would have written. *)
Lemma main_skips_other_tiles_counterexample :
  map (@id unit) (Demo.item_collection "sentinel-2-l2a" TEST_DAY)
  = ["T57KUS"; "T57KUT"]
  /\ Demo.main [] = Demo.process_one_item (Demo.item "T57KUS") []
  /\ fst (Demo.main []) = Ok tt
  /\ file_at "T57KUT.parquet" (snd (Demo.main [])) = None
  /\ (exists df,
        file_at "T57KUT.parquet"
          (snd (Demo.process_one_item (Demo.item "T57KUT") [])) = Some df).
Proof.
  split; [reflexivity |].
  split; [reflexivity |].
  split; [vm_compute; reflexivity |].
  split; [vm_compute; reflexivity |].
  eexists. vm_compute. reflexivity.
Qed.

(** * Further properties of the script *)

(** ** What one unit leaves behind *)

Lemma file_at_app (path : string) (t u : trace) :
  file_at path (t ++ u)%list =
  match file_at path u with
  | Some df => Some df
  | None => file_at path t
  end.
Proof.
  induction t as [| ev t IH]; simpl.
  - now destruct (file_at path u).
  - rewrite IH. now destruct (file_at path u).
Qed.

Section UnitProperties.

Variable Geometry : Type.
Variable planar_area : Geometry -> float.
Variable h3shape_to_cells : Geometry -> pynum -> list string.
Variable latlng_to_cell : float -> float -> pynum -> string.
Variable to_crs : string -> string -> float * float -> float * float.
Variable load : Item Geometry -> list string -> result Dataset.
Variable py_float : string -> result float.
Variable py_pow : float -> pynum -> result float.
Variable outcome : event -> result unit.
Variable item_collection : string -> string -> list (Item Geometry).

Local Abbreviation unit_of :=
  (process_band_group h3shape_to_cells latlng_to_cell to_crs load py_float py_pow
     outcome).
Local Abbreviation one_item :=
  (process_one_item planar_area h3shape_to_cells latlng_to_cell to_crs
     load py_float py_pow outcome).

(** The log line of a unit, and its frame. *)
Local Abbreviation log_of item llcorner bg d :=
  (Print {| log_id := id item; log_band_group := fst bg;
            log_llcorner := llcorner; log_date := date item;
            log_res := resolution (snd bg); log_ratio := fst d;
            log_valid_frac := snd d |}).
Local Abbreviation write_of item bg data :=
  (ToParquet (id item ++ ".parquet")
     (aggregate latlng_to_cell (zoom (snd bg)) (to_rows to_crs data))).

(** The three ways a unit can end: it raises with nothing appended (in
    [load], the check, the diagnostics or [print]); [to_parquet] raises after
    the log line; or it completes with its two events. *)
Lemma unit_outcome (item : Item Geometry) (llcorner : list float) (area : float)
    (bg : string * band_info) (t : trace) :
  (exists e, unit_of item llcorner area bg t = (Raise e, t))
  \/ (exists data d e,
        load item (bands (snd bg)) = Ok data
        /\ check_resolution py_float (resolution (snd bg)) data = Ok tt
        /\ diagnostics py_pow area (resolution (snd bg))
             (sizes_x data * sizes_y data)
             (h3shape_to_cells (geometry item) (zoom (snd bg))) = Ok d
        /\ outcome (write_of item bg data) = Raise e
        /\ unit_of item llcorner area bg t
           = (Raise e, (t ++ [log_of item llcorner bg d])%list))
  \/ (exists data d,
        load item (bands (snd bg)) = Ok data
        /\ check_resolution py_float (resolution (snd bg)) data = Ok tt
        /\ diagnostics py_pow area (resolution (snd bg))
             (sizes_x data * sizes_y data)
             (h3shape_to_cells (geometry item) (zoom (snd bg))) = Ok d
        /\ unit_of item llcorner area bg t
           = (Ok tt, (t ++ unit_events latlng_to_cell to_crs item llcorner bg data d)%list)).
Proof.
  unfold process_band_group, bin_and_write, bindM, perform, emit, lift.
  destruct (load item (bands (snd bg))) as [data | e] eqn:L; [| left; eauto].
  destruct (check_resolution py_float (resolution (snd bg)) data) as [[] | e] eqn:C;
    [| left; eauto].
  destruct (diagnostics py_pow area (resolution (snd bg)) _ _) as [d | e] eqn:D;
    [| left; eauto].
  destruct (outcome (Print _)) as [[] | e] eqn:OP; [| left; eauto].
  destruct (outcome (ToParquet _ _)) as [[] | e] eqn:OW.
  - right. right. exists data, d. repeat split; trivial.
    unfold unit_events. now rewrite <- app_assoc.
  - right. left. exists data, d, e. repeat split; trivial.
Qed.


(** X2. A unit that completes has loaded a cube that passed the check, and
    has appended exactly one log line, carrying its band group, resolution and
    diagnostics, followed by exactly one write, of the aggregate of the cube's
    rows at the band group's zoom, to [id + ".parquet"]. *)
Theorem completed_unit_appends_log_and_file
    (item : Item Geometry) (llcorner : list float) (area : float)
    (bg : string * band_info) (t t' : trace) :
  unit_of item llcorner area bg t = (Ok tt, t') ->
  exists data d,
    load item (bands (snd bg)) = Ok data
    /\ check_resolution py_float (resolution (snd bg)) data = Ok tt
    /\ diagnostics py_pow area (resolution (snd bg))
         (sizes_x data * sizes_y data)
         (h3shape_to_cells (geometry item) (zoom (snd bg))) = Ok d
    /\ t' = (t ++ [ Print {| log_id := id item; log_band_group := fst bg;
                             log_llcorner := llcorner; log_date := date item;
                             log_res := resolution (snd bg);
                             log_ratio := fst d; log_valid_frac := snd d |};
                    ToParquet (id item ++ ".parquet")
                      (aggregate latlng_to_cell (zoom (snd bg))
                         (to_rows to_crs data)) ])%list.
Proof.
  intros H.
  destruct (unit_outcome item llcorner area bg t)
    as [[e' E] | [(data & d & e' & _ & _ & _ & _ & E) | (data & d & L & C & D & E)]];
    rewrite E in H; inversion H.
  exists data, d. repeat split; trivial.
Qed.

(** The two units of [process_one_item], spelled out. *)
Lemma one_item_unfold (item : Item Geometry) (t : trace) :
  one_item item t =
  match unit_of item (firstn 2 (bbox item)) (planar_area (geometry item))
          Demo.vis_nir t with
  | (Raise e, t1) => (Raise e, t1)
  | (Ok _, t1) =>
      match unit_of item (firstn 2 (bbox item)) (planar_area (geometry item))
              Demo.swir_rededge t1 with
      | (Raise e, t2) => (Raise e, t2)
      | (Ok _, t2) =>
          match outcome Breakpoint with
          | Ok _ => (Ok tt, (t2 ++ [Breakpoint])%list)
          | Raise e => (Raise e, t2)
          end
      end
  end.
Proof.
  unfold process_one_item, process_band_groups.
  change BAND_GROUPS with [Demo.vis_nir; Demo.swir_rededge].
  cbn [for_each]. unfold bindM, ret, perform, emit, lift.
  destruct (process_band_group _ _ _ _ _ _ _ _ _ _ Demo.vis_nir t) as [[[] | e] t1]; trivial.
  destruct (process_band_group _ _ _ _ _ _ _ _ _ _ Demo.swir_rededge t1) as [[[] | e] t2]; trivial.
  now destruct (outcome Breakpoint) as [[] | e].
Qed.

(** What a unit does is the same whatever was printed or written before. *)
Lemma unit_frame (item : Item Geometry) (llcorner : list float) (area : float)
    (bg : string * band_info) (t : trace) :
  unit_of item llcorner area bg t
  = (fst (unit_of item llcorner area bg []),
     (t ++ snd (unit_of item llcorner area bg []))%list).
Proof.
  unfold process_band_group, bin_and_write, bindM, perform, emit, lift.
  destruct (load item (bands (snd bg))) as [data | e]; simpl;
    [| now rewrite app_nil_r].
  destruct (check_resolution py_float (resolution (snd bg)) data) as [[] | e];
    simpl; [| now rewrite app_nil_r].
  destruct (diagnostics py_pow area (resolution (snd bg)) _ _) as [d | e];
    simpl; [| now rewrite app_nil_r].
  destruct (outcome (Print _)) as [[] | e]; simpl; [| now rewrite app_nil_r].
  destruct (outcome (ToParquet _ _)) as [[] | e]; simpl; trivial.
  now rewrite <- app_assoc.
Qed.

Lemma one_item_frame (item : Item Geometry) (t : trace) :
  one_item item t
  = (fst (one_item item []), (t ++ snd (one_item item []))%list).
Proof.
  rewrite (one_item_unfold item t), (one_item_unfold item []).
  generalize (firstn 2 (bbox item)) (planar_area (geometry item)).
  intros ll area.
  rewrite (unit_frame item ll area Demo.vis_nir t).
  destruct (unit_of item ll area Demo.vis_nir []) as [[[] | e] s1];
    cbn [fst snd]; trivial.
  rewrite (unit_frame item ll area Demo.swir_rededge (t ++ s1)%list).
  rewrite (unit_frame item ll area Demo.swir_rededge s1).
  destruct (unit_of item ll area Demo.swir_rededge []) as [[[] | e] s2];
    cbn [fst snd app]; [| now rewrite <- !app_assoc].
  destruct (outcome Breakpoint) as [[] | e]; cbn [fst snd];
    now rewrite <- !app_assoc.
Qed.

(** The ways [process_one_item] can end, by what it leaves. *)
Lemma one_item_outcome (item : Item Geometry) (t : trace) :
  let llcorner := firstn 2 (bbox item) in
  (exists e, one_item item t = (Raise e, t))
  \/ (exists e d1,
        one_item item t
        = (Raise e, (t ++ [log_of item llcorner Demo.vis_nir d1])%list))
  \/ (exists e data1 d1,
        load item (bands (snd Demo.vis_nir)) = Ok data1
        /\ one_item item t
           = (Raise e,
              (t ++ unit_events latlng_to_cell to_crs item llcorner
                      Demo.vis_nir data1 d1)%list))
  \/ (exists e data1 d1 d2,
        load item (bands (snd Demo.vis_nir)) = Ok data1
        /\ one_item item t
           = (Raise e,
              (t ++ unit_events latlng_to_cell to_crs item llcorner
                      Demo.vis_nir data1 d1
                 ++ [log_of item llcorner Demo.swir_rededge d2])%list))
  \/ (exists data1 d1 data2 d2,
        load item (bands (snd Demo.vis_nir)) = Ok data1
        /\ load item (bands (snd Demo.swir_rededge)) = Ok data2
        /\ ((exists e,
              outcome Breakpoint = Raise e
              /\ one_item item t
                 = (Raise e,
                    (t ++ unit_events latlng_to_cell to_crs item llcorner
                            Demo.vis_nir data1 d1
                       ++ unit_events latlng_to_cell to_crs item llcorner
                            Demo.swir_rededge data2 d2)%list))
            \/ one_item item t
               = (Ok tt,
                  (t ++ unit_events latlng_to_cell to_crs item llcorner
                          Demo.vis_nir data1 d1
                     ++ unit_events latlng_to_cell to_crs item llcorner
                          Demo.swir_rededge data2 d2
                     ++ [Breakpoint])%list))).
Proof.
  intros llcorner. rewrite one_item_unfold. fold llcorner.
  destruct (unit_outcome item llcorner (planar_area (geometry item)) Demo.vis_nir t)
    as [[e E] | [(data1 & d1 & e & _ & _ & _ & _ & E) | (data1 & d1 & L1 & _ & _ & E)]];
    rewrite E.
  - left. eauto.
  - right. left. eauto.
  - right. right.
    destruct (unit_outcome item llcorner (planar_area (geometry item))
                Demo.swir_rededge
                (t ++ unit_events latlng_to_cell to_crs item llcorner
                        Demo.vis_nir data1 d1)%list)
      as [[e E2] | [(data2 & d2 & e & _ & _ & _ & _ & E2) | (data2 & d2 & L2 & _ & _ & E2)]];
      rewrite E2.
    + left. exists e, data1, d1. auto.
    + right. left. exists e, data1, d1, d2. split; trivial.
      now rewrite <- !app_assoc.
    + right. right. exists data1, d1, data2, d2. split; trivial. split; trivial.
      destruct (outcome Breakpoint) as [[] | e] eqn:OB.
      * right. now rewrite <- !app_assoc.
      * left. exists e. split; trivial. now rewrite <- !app_assoc.
Qed.

Lemma file_at_unit_events (item : Item Geometry) (llcorner : list float)
    (bg : string * band_info) (data : Dataset) (d : float * float) (p : string) :
  file_at p (unit_events latlng_to_cell to_crs item llcorner bg data d)
  = if String.eqb (id item ++ ".parquet") p
    then Some (aggregate latlng_to_cell (zoom (snd bg)) (to_rows to_crs data))
    else None.
Proof.
  unfold unit_events. simpl file_at.
  now destruct (String.eqb (id item ++ ".parquet") p).
Qed.

(** X3. [process_one_item] touches one file only: whatever its outcome, the
    file at any path other than [id + ".parquet"] is what it was before. *)
Theorem other_files_are_untouched
    (item : Item Geometry) (t t' : trace) (r : result unit) (p : string) :
  one_item item t = (r, t') ->
  String.eqb (id item ++ ".parquet") p = false ->
  file_at p t' = file_at p t.
Proof.
  intros H Hp.
  assert (Ht : t' = snd (one_item item t)) by now rewrite H.
  clear H. subst t'.
  destruct (one_item_outcome item t)
    as [[e E] | [(e & d1 & E) | [(e & data1 & d1 & _ & E)
       | [(e & data1 & d1 & d2 & _ & E)
       | (data1 & d1 & data2 & d2 & _ & _ & [(e & _ & E) | E])]]]];
    rewrite E; cbn [snd]; trivial;
    rewrite !file_at_app, ?file_at_unit_events, ?Hp; reflexivity.
Qed.

(** X4. When [process_one_item] completes, it has printed and written for
    [vis_nir], then for [swir_rededge], then entered the debugger, and both
    writes went to [id + ".parquet"]: the file left there is the
    [swir_rededge] frame (zoom 11.0), the [vis_nir] frame having been
    replaced. *)
Theorem completed_item_keeps_last_frame
    (item : Item Geometry) (t t' : trace) :
  one_item item t = (Ok tt, t') ->
  exists (data1 data2 : Dataset) (l1 l2 : LogLine),
    load item ["B02"; "B03"; "B04"; "B08"] = Ok data1
    /\ load item ["B05"; "B06"; "B07"; "B11"; "B12"] = Ok data2
    /\ log_band_group l1 = "vis_nir" /\ log_band_group l2 = "swir_rededge"
    /\ t' = (t ++ [ Print l1;
                    ToParquet (id item ++ ".parquet")
                      (aggregate latlng_to_cell (PyInt 12) (to_rows to_crs data1));
                    Print l2;
                    ToParquet (id item ++ ".parquet")
                      (aggregate latlng_to_cell (PyFloat 11.0%float)
                         (to_rows to_crs data2));
                    Breakpoint ])%list
    /\ file_at (id item ++ ".parquet") t'
       = Some (aggregate latlng_to_cell (PyFloat 11.0%float) (to_rows to_crs data2)).
Proof.
  intros H.
  assert (Ht : t' = snd (one_item item t)) by now rewrite H.
  assert (Hr : fst (one_item item t) = Ok tt) by now rewrite H.
  clear H. subst t'.
  destruct (one_item_outcome item t)
    as [[e E] | [(e & d1 & E) | [(e & data1 & d1 & _ & E)
       | [(e & data1 & d1 & d2 & _ & E)
       | (data1 & d1 & data2 & d2 & L1 & L2 & [(e & _ & E) | E])]]]];
    rewrite E in Hr |- *; cbn [fst snd] in *; try discriminate.
  exists data1, data2.
  exists {| log_id := id item; log_band_group := "vis_nir";
            log_llcorner := firstn 2 (bbox item); log_date := date item;
            log_res := 10.0%float; log_ratio := fst d1;
            log_valid_frac := snd d1 |}.
  exists {| log_id := id item; log_band_group := "swir_rededge";
            log_llcorner := firstn 2 (bbox item); log_date := date item;
            log_res := 20.0%float; log_ratio := fst d2;
            log_valid_frac := snd d2 |}.
  split; [exact L1 |]. split; [exact L2 |].
  split; [reflexivity |]. split; [reflexivity |]. split; [reflexivity |].
  rewrite !file_at_app, !file_at_unit_events. simpl file_at.
  now rewrite String.eqb_refl.
Qed.


(** X6. Running [process_one_item] again on the same item changes nothing:
    the outcome is the same, and every path holds the same file after the
    second run as after the first. *)
Theorem rerun_leaves_same_files
    (item : Item Geometry) (t t1 t2 : trace) (r1 r2 : result unit) :
  one_item item t = (r1, t1) ->
  one_item item t1 = (r2, t2) ->
  r2 = r1 /\ forall p, file_at p t2 = file_at p t1.
Proof.
  intros H1 H2.
  rewrite one_item_frame in H1. rewrite one_item_frame in H2.
  inversion H1; inversion H2; subst. split; trivial.
  intros p. rewrite !file_at_app.
  now destruct (file_at p (snd (one_item item []))).
Qed.

End UnitProperties.

(** ** Edges of the diagnostics and of the check *)

(** X7. A cube with no pixel ([sizes x * sizes y = 0]) stops the unit with
    [ZeroDivisionError], raised by [num_pixels / num_tile_pixels], whenever
    the squared resolution is a nonzero float. *)
Theorem no_pixels_raises_ZeroDivisionError
    (py_pow : float -> pynum -> result float) (area res : float)
    (num_tile_pixels : Z) (cells : list string) (res_squared : float) :
  py_pow res (PyInt 2) = Ok res_squared ->
  PrimFloat.eqb res_squared 0%float = false ->
  num_tile_pixels = 0 ->
  diagnostics py_pow area res num_tile_pixels cells = Raise ZeroDivisionError.
Proof.
  intros Hsq Hsq0 ->. unfold diagnostics, py_truediv_int, py_truediv.
  rewrite Hsq. simpl bind. rewrite Hsq0. reflexivity.
Qed.

(** X8. A footprint that no hexagon covers ([h3shape_to_cells] answers an
    empty collection) stops the unit with [ZeroDivisionError], raised by
    [num_pixels / len(cells)], when the valid fraction before it could be
    computed. *)
Theorem no_cells_raises_ZeroDivisionError
    (py_pow : float -> pynum -> result float) (area res : float)
    (num_tile_pixels : Z) (cells : list string)
    (res_squared num_tile_pixels_f : float) :
  py_pow res (PyInt 2) = Ok res_squared ->
  PrimFloat.eqb res_squared 0%float = false ->
  py_float_of_int num_tile_pixels = Ok num_tile_pixels_f ->
  PrimFloat.eqb num_tile_pixels_f 0%float = false ->
  cells = [] ->
  diagnostics py_pow area res num_tile_pixels cells = Raise ZeroDivisionError.
Proof.
  intros Hsq Hsq0 Hp Hp0 ->. unfold diagnostics, py_truediv_int, py_truediv.
  rewrite Hsq. simpl bind. rewrite Hsq0. simpl bind.
  rewrite Hp. simpl bind. rewrite Hp0. reflexivity.
Qed.

(** X9. A GeoTransform with fewer than two whitespace-separated
    coefficients fails the check with [IndexError] (from [split()[1]]), not
    with an assertion failure, and [float] is never called. *)
Theorem short_GeoTransform_raises_IndexError
    (py_float : string -> result float) (res : float) (data : Dataset) :
  (List.length (split (GeoTransform data)) < 2)%nat ->
  check_resolution py_float res data = Raise IndexError.
Proof.
  intros H. unfold check_resolution, py_index.
  assert (E : nth_error (split (GeoTransform data)) 1 = None)
    by (apply nth_error_None; lia).
  now rewrite E.
Qed.

(** X10. A second coefficient that reads as NaN fails the check whatever
    the configured resolution: the comparison is the binary64 equality, which
    NaN never satisfies. *)
Theorem nan_resolution_fails_check
    (py_float : string -> result float) (res : float) (data : Dataset)
    (tok : string) (measured : float) :
  nth_error (split (GeoTransform data)) 1 = Some tok ->
  py_float tok = Ok measured ->
  is_nan measured = true ->
  check_resolution py_float res data
  = Raise (AssertionError "Resolution is donked up").
Proof.
  intros Htok Hf Hnan. unfold check_resolution, py_index.
  rewrite Htok. simpl bind. rewrite Hf. simpl bind.
  assert (E : PrimFloat.eqb res measured = false).
  { rewrite eqb_spec. unfold Prim2SF at 2. rewrite Hnan.
    unfold SFeqb. now destruct (Prim2SF res). }
  now rewrite E.
Qed.

(** ** More on the aggregated frame *)

Lemma group_values_app (A : Type) (key_of : A -> key) (value_of : A -> Z)
    (k : key) (rows rows' : list A) :
  group_values key_of value_of k (rows ++ rows')%list
  = (group_values key_of value_of k rows
     ++ group_values key_of value_of k rows')%list.
Proof.
  unfold group_values. now rewrite filter_app, map_app.
Qed.

Lemma group_values_none (A : Type) (key_of : A -> key) (value_of : A -> Z)
    (k : key) (rows : list A) :
  Forall (fun r => key_eqb (key_of r) k = false) rows ->
  group_values key_of value_of k rows = [].
Proof.
  unfold group_values. induction 1 as [| r rows Hr _ IH]; simpl; trivial.
  now rewrite Hr.
Qed.

Lemma groupby_sum_keys_incl (A : Type) (key_of : A -> key) (value_of : A -> Z)
    (rows : list A) :
  incl (map fst (groupby_sum key_of value_of rows)) (map key_of rows).
Proof.
  intros k Hin. apply in_map_iff in Hin. destruct Hin as [[k' a] [E Hin]].
  simpl in E. subst k'.
  apply (find_key_In _ _ (groupby_sum_ordered key_of value_of rows)) in Hin.
  rewrite groupby_sum_find in Hin.
  apply (group_values_nonempty key_of value_of).
  intros Hnil. rewrite Hnil in Hin. discriminate.
Qed.

(** X11. Every value of the aggregated frame lies in the int16 range,
    whatever the samples. *)
Theorem aggregate_values_fit_int16
    (latlng_to_cell : float -> float -> pynum -> string)
    (hex_level : pynum) (df : list Row) :
  Forall (fun r => - 32768 <= value r <= 32767)
         (records (aggregate latlng_to_cell hex_level df)).
Proof.
  apply Forall_forall. intros r Hin.
  unfold aggregate in Hin. simpl records in Hin.
  apply in_map_iff in Hin. destruct Hin as [g [<- _]]. simpl value.
  apply wrap16_range.
Qed.

(** X12. The records of the aggregated frame come in strictly increasing
    order of (cell, band), cells first: the order of the sorted group keys. *)
Theorem aggregate_records_are_sorted
    (latlng_to_cell : float -> float -> pynum -> string)
    (hex_level : pynum) (df : list Row) :
  StronglySorted key_lt
    (map hex_key (records (aggregate latlng_to_cell hex_level df))).
Proof.
  rewrite aggregate_keys. apply groupby_sum_ordered.
Qed.

(** X13. A group's record depends on the samples of that group only: rows
    that fall in other (cell, band) groups, added to the frame, leave the
    record as it is. *)
Theorem aggregate_ignores_other_groups
    (latlng_to_cell : float -> float -> pynum -> string)
    (hex_level : pynum) (df extra : list Row) (r : HexRow) :
  In r (records (aggregate latlng_to_cell hex_level df)) ->
  Forall (fun row =>
            key_eqb (row_key latlng_to_cell hex_level row) (hex_key r) = false)
         extra ->
  In r (records (aggregate latlng_to_cell hex_level (df ++ extra)%list)).
Proof.
  unfold aggregate. simpl records. rewrite !in_map_iff.
  intros [[k a] [<- Hin]] Hextra. rewrite hex_key_of_group in Hextra.
  simpl fst in Hextra.
  exists (k, a). split; trivial.
  apply find_key_In; [apply groupby_sum_ordered |].
  apply find_key_In in Hin; [| apply groupby_sum_ordered].
  rewrite groupby_sum_find in Hin |- *.
  now rewrite group_values_app, (@group_values_none _ _ row_value _ _ Hextra), app_nil_r.
Qed.

(** X14. Aggregation never yields more records than there are rows. *)
Theorem aggregate_has_at_most_one_record_per_row
    (latlng_to_cell : float -> float -> pynum -> string)
    (hex_level : pynum) (df : list Row) :
  (List.length (records (aggregate latlng_to_cell hex_level df))
   <= List.length df)%nat.
Proof.
  rewrite <- (length_map hex_key), aggregate_keys.
  rewrite <- (length_map (row_key latlng_to_cell hex_level) df).
  apply NoDup_incl_length.
  - apply ordered_NoDup, groupby_sum_ordered.
  - apply groupby_sum_keys_incl.
Qed.

(** The long frame keeps every band sample of every pixel exactly once,
    in pixel order and then band order, and the point of each row is the
    reprojection to EPSG:4326 of that row's own (x, y). *)
Lemma to_rows_keeps_every_sample
    (to_crs : string -> string -> float * float -> float * float)
    (data : Dataset) :
  map (fun r => (row_band r, row_value r)) (to_rows to_crs data)
  = flat_map px_values (pixels data)
  /\ Forall (fun r => row_geometry r
                      = to_crs (crs_wkt data) "epsg:4326" (row_x r, row_y r))
            (to_rows to_crs data).
Proof.
  unfold to_rows, stack. split.
  - rewrite map_map.
    induction (pixels data) as [| p ps IH]; simpl; trivial.
    rewrite map_app, IH, map_map. f_equal.
    rewrite <- (map_id (px_values p)) at 2.
    apply map_ext. now intros [b v].
  - apply Forall_forall. intros r Hin. apply in_map_iff in Hin.
    destruct Hin as [[[[y x] b] v] [<- _]]. reflexivity.
Qed.

(** ** [plot_utils.py] *)

(** X15. [plot_shape] cannot draw: its first step reads the global [gpd],
    which the module never binds, so every call raises [NameError] and leaves
    the figure as it was. *)
Theorem plot_shape_raises_NameError
    (Shape : Type)
    (to_crs : PlotUtils.GeoDataFrame Shape -> Z -> result (PlotUtils.GeoDataFrame Shape))
    (shape : Shape) (ax : option nat) (log : list (PlotUtils.plot_event Shape)) :
  PlotUtils.plot_shape to_crs shape ax log
  = (Raise (mk_exn "NameError" "name 'gpd' is not defined"), log).
Proof.
  reflexivity.
Qed.

(** X16. [plot_cells] never draws either: it raises whatever
    [h3.cells_to_h3shape] raises, or else the [NameError] of [plot_shape], and
    the figure is left as it was. *)
Theorem plot_cells_never_draws
    (Shape : Type)
    (to_crs : PlotUtils.GeoDataFrame Shape -> Z -> result (PlotUtils.GeoDataFrame Shape))
    (cells_to_h3shape : list string -> result Shape)
    (cells : list string) (ax : option nat)
    (log : list (PlotUtils.plot_event Shape)) :
  PlotUtils.plot_cells to_crs cells_to_h3shape cells ax log
  = (Raise match cells_to_h3shape cells with
           | Ok _ => mk_exn "NameError" "name 'gpd' is not defined"
           | Raise e => e
           end,
     log).
Proof.
  unfold PlotUtils.plot_cells, PlotUtils.pbind, PlotUtils.plift. simpl.
  now destruct (cells_to_h3shape cells).
Qed.

(** ** The further properties at work in the small world *)


Lemma completed_unit_appends_log_and_file_witness :
  exists data d,
    Demo.load (Demo.item "T57KUS") ["B02"; "B03"; "B04"; "B08"] = Ok data
    /\ Demo.check_resolution 10.0%float data = Ok tt
    /\ Demo.diagnostics 120000000.0%float 10.0%float
         (sizes_x data * sizes_y data)
         (Demo.h3shape_to_cells tt (PyInt 12)) = Ok d
    /\ snd (Demo.process_band_group (Demo.item "T57KUS") Demo.llcorner
              120000000.0%float Demo.vis_nir [])
       = ([] ++ [ Print {| log_id := "T57KUS"; log_band_group := "vis_nir";
                           log_llcorner := Demo.llcorner;
                           log_date := "2023-12-01"; log_res := 10.0%float;
                           log_ratio := fst d; log_valid_frac := snd d |};
                  ToParquet "T57KUS.parquet"
                    (Demo.aggregate (PyInt 12) (to_rows Demo.to_crs data)) ])%list.
Proof.
  apply (@completed_unit_appends_log_and_file unit Demo.h3shape_to_cells
           Demo.latlng_to_cell Demo.to_crs Demo.load Demo.py_float Demo.py_pow Demo.outcome
           (Demo.item "T57KUS") Demo.llcorner 120000000.0%float Demo.vis_nir []).
  vm_compute. reflexivity.
Defined.

Lemma other_files_are_untouched_witness :
  file_at "T57KUT.parquet"
    (snd (Demo.process_one_item (Demo.item "T57KUS")
            [ToParquet "T57KUT.parquet" (Demo.aggregate (PyInt 12) Demo.rows_bright)]))
  = file_at "T57KUT.parquet"
      [ToParquet "T57KUT.parquet" (Demo.aggregate (PyInt 12) Demo.rows_bright)].
Proof.
  apply (@other_files_are_untouched unit Demo.planar_area Demo.h3shape_to_cells
           Demo.latlng_to_cell Demo.to_crs Demo.load Demo.py_float Demo.py_pow Demo.outcome
           (Demo.item "T57KUS") _ _
           (fst (Demo.process_one_item (Demo.item "T57KUS")
                   [ToParquet "T57KUT.parquet"
                      (Demo.aggregate (PyInt 12) Demo.rows_bright)]))).
  - apply surjective_pairing.
  - vm_compute. reflexivity.
Defined.

Lemma completed_item_keeps_last_frame_witness :
  exists f,
    file_at "T57KUS.parquet" (snd (Demo.process_one_item (Demo.item "T57KUS") []))
    = Some f
    /\ hex_col f = PyFloat 11.0%float.
Proof.
  destruct (@completed_item_keeps_last_frame unit Demo.planar_area
              Demo.h3shape_to_cells Demo.latlng_to_cell Demo.to_crs Demo.load
              Demo.py_float Demo.py_pow Demo.outcome (Demo.item "T57KUS") []
              (snd (Demo.process_one_item (Demo.item "T57KUS") [])))
    as (data1 & data2 & l1 & l2 & _ & _ & _ & _ & _ & Hfile).
  - vm_compute. reflexivity.
  - eexists. split; [exact Hfile | reflexivity].
Defined.


Lemma rerun_leaves_same_files_witness :
  fst (Demo.process_one_item (Demo.item "T57KUS")
         (snd (Demo.process_one_item (Demo.item "T57KUS") [])))
  = fst (Demo.process_one_item (Demo.item "T57KUS") [])
  /\ forall p,
       file_at p (snd (Demo.process_one_item (Demo.item "T57KUS")
                         (snd (Demo.process_one_item (Demo.item "T57KUS") []))))
       = file_at p (snd (Demo.process_one_item (Demo.item "T57KUS") [])).
Proof.
  apply (@rerun_leaves_same_files unit Demo.planar_area Demo.h3shape_to_cells
           Demo.latlng_to_cell Demo.to_crs Demo.load Demo.py_float Demo.py_pow Demo.outcome
           (Demo.item "T57KUS") []); apply surjective_pairing.
Defined.

Lemma no_pixels_raises_ZeroDivisionError_witness :
  Demo.diagnostics 120000000.0%float 10.0%float 0
    (Demo.h3shape_to_cells tt (PyInt 12))
  = Raise ZeroDivisionError.
Proof.
  apply (@no_pixels_raises_ZeroDivisionError Demo.py_pow 120000000.0%float
           10.0%float 0 (Demo.h3shape_to_cells tt (PyInt 12)) 100.0%float);
    vm_compute; reflexivity.
Defined.

Lemma no_cells_raises_ZeroDivisionError_witness :
  Demo.diagnostics 120000000.0%float 10.0%float (1200 * 1000) []
  = Raise ZeroDivisionError.
Proof.
  apply (@no_cells_raises_ZeroDivisionError Demo.py_pow 120000000.0%float
           10.0%float (1200 * 1000) [] 100.0%float 1200000.0%float);
    vm_compute; reflexivity.
Defined.

Lemma short_GeoTransform_raises_IndexError_witness :
  Demo.check_resolution 10.0%float
    {| GeoTransform := " 600000.0 "; crs_wkt := "EPSG:4326";
       sizes_x := 1; sizes_y := 1; pixels := [] |}
  = Raise IndexError.
Proof.
  apply (@short_GeoTransform_raises_IndexError Demo.py_float 10.0%float
           {| GeoTransform := " 600000.0 "; crs_wkt := "EPSG:4326";
              sizes_x := 1; sizes_y := 1; pixels := [] |}).
  vm_compute. lia.
Defined.

Lemma nan_resolution_fails_check_witness :
  check_resolution (fun _ => Ok PrimFloat.nan) 10.0%float Demo.cube10
  = Raise (AssertionError "Resolution is donked up").
Proof.
  apply (@nan_resolution_fails_check (fun _ => Ok PrimFloat.nan) 10.0%float
           Demo.cube10 "10.0" PrimFloat.nan); vm_compute; reflexivity.
Defined.

(** A row north of the equator falls in another hexagon. *)
Lemma aggregate_ignores_other_groups_witness :
  In {| hex := "8c9e688000001ff"; band := "B02"; value := - 25536 |}
     (records (Demo.aggregate (PyInt 12)
                 (Demo.rows_bright ++ [Demo.row 1%float "B02" 7])%list)).
Proof.
  apply (@aggregate_ignores_other_groups Demo.latlng_to_cell (PyInt 12)
           Demo.rows_bright [Demo.row 1%float "B02" 7]
           {| hex := "8c9e688000001ff"; band := "B02"; value := - 25536 |}).
  - vm_compute. left. reflexivity.
  - repeat constructor.
Defined.

(** ** When the check and the diagnostics let a unit through *)

(** X17. The check passes only when the GeoTransform has a second
    coefficient, [float] reads it, and the value read equals the configured
    resolution. *)
Theorem check_passes_only_on_equal_width
    (py_float : string -> result float) (res : float) (data : Dataset) :
  check_resolution py_float res data = Ok tt ->
  exists tok measured,
    nth_error (split (GeoTransform data)) 1 = Some tok
    /\ py_float tok = Ok measured
    /\ PrimFloat.eqb res measured = true.
Proof.
  unfold check_resolution, py_index, py_assert.
  destruct (nth_error (split (GeoTransform data)) 1) as [tok |] eqn:T;
    [| discriminate].
  simpl bind. destruct (py_float tok) as [measured | e] eqn:F; [| discriminate].
  simpl bind. destruct (PrimFloat.eqb res measured) eqn:E; [| discriminate].
  intros _. exists tok, measured. repeat split; trivial.
Qed.

Lemma check_passes_only_on_equal_width_witness :
  exists tok measured,
    nth_error (split (GeoTransform Demo.cube_oblong)) 1 = Some tok
    /\ Demo.py_float tok = Ok measured
    /\ PrimFloat.eqb 10.0%float measured = true.
Proof.
  apply (@check_passes_only_on_equal_width Demo.py_float 10.0%float
           Demo.cube_oblong).
  vm_compute. reflexivity.
Defined.

(** X18. The diagnostics return only when the squared resolution and the
    two counts, as floats, are defined and nonzero; what they return is then
    [(area / res^2) / len(cells)] and [(area / res^2) / num_tile_pixels]. *)
Theorem diagnostics_return_only_on_nonzero_divisors
    (py_pow : float -> pynum -> result float) (area res : float)
    (num_tile_pixels : Z) (cells : list string) (ratio valid_frac : float) :
  diagnostics py_pow area res num_tile_pixels cells = Ok (ratio, valid_frac) ->
  exists res_squared num_cells_f num_tile_pixels_f,
    py_pow res (PyInt 2) = Ok res_squared
    /\ PrimFloat.eqb res_squared 0%float = false
    /\ py_float_of_int (Z.of_nat (List.length cells)) = Ok num_cells_f
    /\ PrimFloat.eqb num_cells_f 0%float = false
    /\ py_float_of_int num_tile_pixels = Ok num_tile_pixels_f
    /\ PrimFloat.eqb num_tile_pixels_f 0%float = false
    /\ ratio = PrimFloat.div (PrimFloat.div area res_squared) num_cells_f
    /\ valid_frac
       = PrimFloat.div (PrimFloat.div area res_squared) num_tile_pixels_f.
Proof.
  unfold diagnostics, py_truediv_int, py_truediv.
  destruct (py_pow res (PyInt 2)) as [sq | e] eqn:Hsq; [| discriminate].
  simpl bind.
  destruct (PrimFloat.eqb sq 0%float) eqn:Esq; [discriminate |]. simpl bind.
  destruct (py_float_of_int num_tile_pixels) as [fp | e] eqn:Hp; [| discriminate].
  simpl bind.
  destruct (PrimFloat.eqb fp 0%float) eqn:Ep; [discriminate |]. simpl bind.
  destruct (py_float_of_int (Z.of_nat (List.length cells))) as [fc | e] eqn:Hc;
    [| discriminate].
  simpl bind.
  destruct (PrimFloat.eqb fc 0%float) eqn:Ec; [discriminate |].
  intros H. inversion H. exists sq, fc, fp. repeat split; trivial.
Qed.

Lemma diagnostics_return_only_on_nonzero_divisors_witness :
  exists res_squared num_cells_f num_tile_pixels_f,
    Demo.py_pow 10.0%float (PyInt 2) = Ok res_squared
    /\ PrimFloat.eqb res_squared 0%float = false
    /\ py_float_of_int
         (Z.of_nat (List.length (Demo.h3shape_to_cells tt (PyInt 12))))
       = Ok num_cells_f
    /\ PrimFloat.eqb num_cells_f 0%float = false
    /\ py_float_of_int (1200 * 1000) = Ok num_tile_pixels_f
    /\ PrimFloat.eqb num_tile_pixels_f 0%float = false
    /\ 400000.0%float
       = PrimFloat.div (PrimFloat.div 120000000.0%float res_squared) num_cells_f
    /\ 1.0%float
       = PrimFloat.div (PrimFloat.div 120000000.0%float res_squared)
           num_tile_pixels_f.
Proof.
  apply (@diagnostics_return_only_on_nonzero_divisors Demo.py_pow
           120000000.0%float 10.0%float (1200 * 1000)
           (Demo.h3shape_to_cells tt (PyInt 12)) 400000.0%float 1.0%float).
  vm_compute. reflexivity.
Defined.
